(** * The HHL algorithm driver of qiskit-aqua: a shallow embedding

    Source: [qiskit_aqua/algorithms/single_sample/hhl/hhl.py], class [HHL].

    Conventions of the embedding.
    - numpy's [complex128]/[float64] values are idealised as complex numbers
      over the real numbers of the Standard Library: overflow, [nan] and
      [inf] are not modelled. Rounding is left out of the methods
      themselves; where a statement depends on it (the renormalisation of
      the extractor), the float64 routines appear as an interface with a
      stated accuracy.
    - Python dictionaries are finite maps ([gmap]) with string keys.
    - The object [self], the caller's [params] dictionary, the text written
      by [print] and the circuits handed to the execution backend form an
      explicit state that is threaded through every method; a raised
      exception keeps the state reached so far, as in Python.
    - qiskit's circuit classes, the base class [QuantumAlgorithm] and the
      pluggable components (eigenvalue estimation, initial state,
      reciprocal) are not part of the file: they appear as an interface. *)

From Stdlib Require Import Reals Lra Lia ZArith QArith Ascii String List.
From stdpp Require Import base gmap strings list.

Open Scope R_scope.

Set Warnings "-register-all".

(** ** Complex amplitudes *)

Record complex : Type := Cx { real : R; imag : R }.

Definition C0 : complex := Cx 0 0.
Definition C1 : complex := Cx 1 0.
Definition Ci : complex := Cx 0 1.

Definition Cadd (a b : complex) : complex :=
  Cx (real a + real b) (imag a + imag b).

Definition Csub (a b : complex) : complex :=
  Cx (real a - real b) (imag a - imag b).

Definition Cmul (a b : complex) : complex :=
  Cx (real a * real b - imag a * imag b) (real a * imag b + imag a * real b).

(** [abs(z)] *)
Definition Cabs (z : complex) : R :=
  sqrt (real z * real z + imag z * imag z).

(** [z / r] for a real scalar [r] *)
Definition Cdiv_real (z : complex) (r : R) : complex :=
  Cx (real z / r) (imag z / r).

Definition Rsum (l : list R) : R := foldr Rplus 0 l.

#[global] Instance Rle_decision : RelDecision Rle := Rle_dec.

(** ** The numpy and Python primitives used by the extractor *)

Module np.

(** [np.isclose(a, b, rtol=1e-05, atol=1e-08)] on finite values:
    [absolute(a - b) <= atol + rtol * absolute(b)]. *)
Definition default_rtol : R := 1e-5.
Definition default_atol : R := 1e-8.

Definition isclose (a b : complex) (rtol atol : R) : bool :=
  bool_decide (Cabs (Csub a b) <= atol + rtol * Cabs b).

(** [np.where(mask)[0]]: the positions of the true entries, ascending. *)
Fixpoint where_from (i : nat) (mask : list bool) : list nat :=
  match mask with
  | [] => []
  | b :: m => if b then i :: where_from (S i) m else where_from (S i) m
  end.

Definition where_ (mask : list bool) : list nat := where_from 0 mask.

(** [a[idxs]] for an integer index array [idxs]. *)
Definition take {A} (a : list A) (idxs : list nat) : list A :=
  omap (fun i => a !! i) idxs.

(** [a[mask]] for a boolean array [mask] of the length of [a]. *)
Fixpoint compress {A} (mask : list bool) (a : list A) : list A :=
  match mask, a with
  | b :: m, x :: a' => if b then x :: compress m a' else compress m a'
  | _, _ => []
  end.

(** [np.sum(np.abs(a)**2)] *)
Definition sum_abs_sq (a : list complex) : R :=
  Rsum (map (fun v => Cabs v ^ 2) a).

(** [np.linalg.norm(a)] of a complex vector:
    [sqrt(a.real.dot(a.real) + a.imag.dot(a.imag))]. *)
Definition linalg_norm (a : list complex) : R :=
  sqrt (Rsum (map (fun v => real v * real v) a)
        + Rsum (map (fun v => imag v * imag v) a)).

(** [a / r] *)
Definition divide (a : list complex) (r : R) : list complex :=
  map (fun v => Cdiv_real v r) a.

Fixpoint bin_pos (p : positive) : string :=
  match p with
  | xH => "1"
  | xO q => bin_pos q +:+ "0"
  | xI q => bin_pos q +:+ "1"
  end.

(** [bin(n)[2:]] *)
Definition bin (n : nat) : string :=
  match N.of_nat n with
  | N0 => "0"
  | Npos p => bin_pos p
  end.

Fixpoint zeros (n : nat) : string :=
  match n with
  | O => ""
  | S k => String "0"%char (zeros k)
  end.

(** [s.zfill(w)] *)
Definition zfill (w : nat) (s : string) : string :=
  zeros (w - String.length s) +:+ s.

(** [np.binary_repr(n, width=w)] for [n >= 0]: the binary digits of [n],
    padded with zeros on the left up to [w] characters, never cut. *)
Definition binary_repr (n width : nat) : string :=
  let b := bin n in zfill (Nat.max (String.length b) width) b.

End np.

Fixpoint string_drop (n : nat) (s : string) : string :=
  match n, s with
  | S k, String _ s' => string_drop k s'
  | _, _ => s
  end.

(** [s[-k:]]: the last [k] characters; the whole string when [k] is [0]
    (the slice is then [s[0:]]) or exceeds the length. *)
Definition slice_last (k : nat) (s : string) : string :=
  if (k =? 0)%nat then s else string_drop (String.length s - k) s.

(** [2**e] for a Python int [e]: an int when [e >= 0], the float [2^e]
    otherwise (exact for the exponents that occur here). *)
Definition py_pow2 (e : Z) : Q :=
  if (0 <=? e)%Z then inject_Z (2 ^ e) else Qinv (inject_Z (2 ^ (- e))).

(** [idx >= 2**(num-1)] *)
Definition ge_pow2 (idx num : nat) : bool :=
  Qle_bool (py_pow2 (Z.of_nat num - 1)) (inject_Z (Z.of_nat idx)).

(** ** The post-processing of the state vector in [_exact_simulation]

    The values of the local variables of [HHL._exact_simulation] when
    [print(d)] is reached, as a function of the state vector [sv], the total
    number of qubits [num] and [self._num_q]. *)

Record locals : Type := Locals {
  l_idxs : list nat;
  l_vals : list complex;
  l_p : R;
  l_d : gmap string R
}.

Definition noise_mask (sv : list complex) : list bool :=
  map (fun v => negb (np.isclose v C0 1e-10 np.default_atol)) sv.

Definition build_dict (num num_q : nat) (idxs : list nat) (vals : list complex)
  : gmap string R :=
  foldl (fun d iv => <[slice_last num_q (np.binary_repr (fst iv) num) := real (snd iv)]> d)
        ∅ (zip idxs vals).

Definition post_process (sv : list complex) (num num_q : nat) : locals :=
  let idxs := np.where_ (noise_mask sv) in
  let vals := np.take sv idxs in
  let correct := map (fun i => ge_pow2 i num) idxs in
  let p := np.sum_abs_sq (np.compress correct vals) in
  let idxs := np.compress correct idxs in
  let vals := np.compress correct vals in
  let vals := np.divide vals (np.linalg_norm vals) in
  let d := build_dict num num_q idxs vals in
  Locals idxs vals p d.

(** ** Python values, exceptions and dictionaries *)

Inductive pyval : Type :=
  | PNone
  | PBool (b : bool)
  | PNum (z : complex)          (* int, float and complex numbers *)
  | PStr (s : string)
  | PList (l : list pyval)
  | PTuple (l : list pyval).

Definition PInt (n : Z) : pyval := PNum (Cx (IZR n) 0).

(** A dictionary with string keys. *)
Abbreviation dict V := (gmap string V).

(** A numpy array: its shape and the (nested) sequence it holds. *)
Record ndarray : Type := Ndarray { shape : list nat; items : pyval }.

(** The [matrix] argument: an array already, or any other object. *)
Inductive matrix_arg : Type :=
  | Arr (a : ndarray)
  | Obj (v : pyval).

(** The shape [np.array] gives to nested sequences: one axis per nesting
    level as long as the entries of a level agree in shape; entries that
    disagree are kept as objects of a one-dimensional array. *)
Fixpoint np_shape (v : pyval) : list nat :=
  match v with
  | PList l | PTuple l =>
      length l ::
        match map np_shape l with
        | [] => []
        | s :: ss => if forallb (fun s' => bool_decide (s' = s)) ss then s else []
        end
  | _ => []
  end.

(** [np.array(v)] *)
Definition np_array (v : pyval) : ndarray := Ndarray (np_shape v) v.



Inductive exn : Type :=
  | NameError (name : string)
  | NotImplementedError
  | AlgorithmError (msg : string)
  | KeyError (key : string)
  | TypeError
  | IndexError
  | AttributeError
  | AssertionError (msg : string)
  | Foreign (msg : string).     (* raised inside a component, qiskit or the backend *)

(** The names bound in the module [hhl.py] when a method body runs: its
    imports, [logger] and the class itself. *)
Definition module_names : list string :=
  [ "logging"; "QuantumRegister"; "ClassicalRegister"; "QuantumCircuit";
    "QuantumAlgorithm"; "get_eigs_instance"; "get_reciprocal_instance";
    "get_initial_state_instance"; "np"; "qiskit"; "logger"; "HHL" ].

(** The exception classes among Python's builtins. *)
Definition builtin_exceptions : list string :=
  [ "ArithmeticError"; "AssertionError"; "AttributeError"; "Exception";
    "IndexError"; "KeyError"; "LookupError"; "NameError";
    "NotImplementedError"; "RuntimeError"; "TypeError"; "ValueError" ].

(** The exception that [raise name(...)] raises: the instance [e] of the
    class when [name] is bound, [NameError] otherwise. *)
Definition raised (name : string) (e : exn) : exn :=
  if bool_decide (name ∈ module_names ++ builtin_exceptions) then e
  else NameError name.

(** [v == s] for a string literal [s] *)
Definition py_eq_str (v : pyval) (s : string) : bool :=
  match v with
  | PStr s' => String.eqb s' s
  | _ => false
  end.

#[global] Instance complex_eq_dec : EqDecision complex.
Proof.
  intros [a b] [c d]. destruct (Req_dec_T a c) as [->|Ha], (Req_dec_T b d) as [->|Hb].
  - left. reflexivity.
  - right. intros H. inversion H. contradiction.
  - right. intros H. inversion H. contradiction.
  - right. intros H. inversion H. contradiction.
Defined.

(** [bool(v)] *)
Definition truthy (v : pyval) : bool :=
  match v with
  | PNone => false
  | PBool b => b
  | PNum z => negb (bool_decide (z = C0))
  | PStr s => negb (bool_decide (s = ""))
  | PList l | PTuple l => negb (bool_decide (l = []))
  end.

(** [d.get(k)] *)
Definition dict_get (d : dict pyval) (k : string) : pyval :=
  default PNone (d !! k).

(** [n * [x]]: the empty list when [n <= 0]. *)
Definition list_repeat (n : Z) (x : pyval) : list pyval :=
  replicate (Z.to_nat n) x.

(** The number a Python value stands for in arithmetic. *)
Definition as_number (v : pyval) : option complex :=
  match v with
  | PNum z => Some z
  | PBool b => Some (if b then C1 else C0)
  | _ => None
  end.

(** ** qiskit's registers and circuits, as far as the class uses them

    A circuit is the list of its registers and the list of its
    instructions. The consistency checks qiskit runs on its own arguments
    are outside the source file and are not modelled. *)

Inductive register : Type :=
  | QuantumRegister (size : nat) (name : option string)
  | ClassicalRegister (size : nat) (name : option string).

#[global] Instance register_eq_dec : EqDecision register.
Proof. solve_decision. Defined.

Inductive instruction : Type :=
  | Gate (label : string) (qargs : list register)
  | Measure (q : option register) (c : register).

Record QuantumCircuit : Type := Circuit {
  regs : list register;
  data : list instruction
}.

(** [QuantumCircuit(q)] *)
Definition circuit_of (q : register) : QuantumCircuit := Circuit [q] [].

(** [qc += rhs]: the registers of [rhs] that [qc] lacks are added, the
    instructions of [rhs] are appended. *)
Definition iadd (qc rhs : QuantumCircuit) : QuantumCircuit :=
  Circuit (regs qc ++ filter (fun r => r ∉ regs qc) (regs rhs))
          (data qc ++ data rhs).

(** [qc.add(r)] *)
Definition add (qc : QuantumCircuit) (r : register) : QuantumCircuit :=
  Circuit (regs qc ++ [r]) (data qc).

(** [qc.measure(q, c)] *)
Definition measure (qc : QuantumCircuit) (q : option register) (c : register)
  : QuantumCircuit :=
  Circuit (regs qc) (data qc ++ [Measure q c]).

(** [len(r)] *)
Definition reg_len (r : register) : nat :=
  match r with
  | QuantumRegister n _ | ClassicalRegister n _ => n
  end.

(** [qc.get_qregs()]: the quantum registers, in the order they were added. *)
Definition is_quantum (r : register) : bool :=
  match r with QuantumRegister _ _ => true | _ => false end.

Definition get_qregs (qc : QuantumCircuit) : list register :=
  List.filter is_quantum (regs qc).

(** ** The components the class is configured with

    The eigenvalue estimation, the initial state, the reciprocal, the
    component registry, the constants of [QuantumAlgorithm] and its
    [execute] method are defined elsewhere. Each call either raises (left)
    or returns, together with the component as the call leaves it. A
    component is taken not to write into the dictionaries it is handed. *)

Class Components : Type := {
  eigs_t : Type;
  init_state_t : Type;
  reciprocal_t : Type;
  result_t : Type;
  SECTION_KEY_ALGORITHM : string;
  SECTION_KEY_EIGS : string;
  SECTION_KEY_INITIAL_STATE : string;
  SECTION_KEY_RECIPROCAL : string;
  get_eigs_instance : pyval -> string + eigs_t;
  eigs_init_params : eigs_t -> dict pyval -> ndarray -> string + eigs_t;
  get_register_sizes : eigs_t -> string + (nat * nat);
  _negative_evals : eigs_t -> pyval;
  eigs_construct_circuit :
    eigs_t -> string -> register -> string + (QuantumCircuit * eigs_t);
  _output_register : eigs_t -> option register;
  construct_inverse : eigs_t -> string -> string + (QuantumCircuit * eigs_t);
  get_initial_state_instance : pyval -> string + init_state_t;
  init_state_init_params : init_state_t -> dict pyval -> string + init_state_t;
  init_state_construct_circuit :
    init_state_t -> string -> register -> string + (QuantumCircuit * init_state_t);
  get_reciprocal_instance : pyval -> string + reciprocal_t;
  reciprocal_init_params : reciprocal_t -> dict pyval -> string + reciprocal_t;
  reciprocal_construct_circuit :
    reciprocal_t -> string -> option register
    -> string + (QuantumCircuit * reciprocal_t);
  _anc : reciprocal_t -> option register;
  execute : option QuantumCircuit -> string + result_t;
  get_statevector : result_t -> string + list complex
}.

(** The values stored in the result dictionary [self._ret]. *)
Inductive retval : Type :=
  | RCircuit (qc : option QuantumCircuit)
  | RRegs (handles : dict (option register)).

Definition PROP_MODE : string := "mode".

(** How a call ends: with a value, or with a raised exception. *)
Inductive outcome (A : Type) : Type :=
  | Return (a : A)
  | Raise (e : exn).
Arguments Return {A} a.
Arguments Raise {A} e.

Section HHL.

Context `{Components}.

(** *** The object and the state of a run *)

Record HHL : Type := mkHHL {
  _backend : pyval;                       (* attribute of the base class *)
  _matrix : option ndarray;
  _invec : option (list pyval);
  _eigs : option eigs_t;
  _init_state : option init_state_t;
  _reciprocal : option reciprocal_t;
  _circuit : option QuantumCircuit;
  _io_register : option register;
  _eigenvalue_register : option register;
  _ancilla_register : option register;
  _success_bit : option register;
  _num_q : nat;
  _num_a : nat;
  _mode : pyval;
  _ret : dict retval
}.

(** [HHL.__init__]; [backend] is what the base class leaves in
    [self._backend]. *)
Definition __init__ (backend : pyval) : HHL :=
  mkHHL backend None None None None None None None None None None 0 0 PNone ∅.

Record world : Type := World {
  self : HHL;                             (* the object *)
  params : dict (dict pyval);             (* the caller's [params] *)
  stdout : list (dict R);                 (* what [print] has written *)
  submitted : list (option QuantumCircuit) (* calls of [self.execute] *)
}.

Definition M (A : Type) : Type := world -> outcome A * world.

#[global] Instance M_ret : MRet M := fun A a w => (Return a, w).

#[global] Instance M_bind : MBind M := fun A B f m w =>
  match m w with
  | (Return a, w') => f a w'
  | (Raise e, w') => (Raise e, w')
  end.

Definition throw {A} (e : exn) : M A := fun w => (Raise e, w).

Definition get {A} (f : HHL -> A) : M A := fun w => (Return (f (self w)), w).

Definition modify (f : HHL -> HHL) : M unit := fun w =>
  (Return tt, World (f (self w)) (params w) (stdout w) (submitted w)).

(** A call into a component: its exception, if any, is propagated. *)
Definition call {A} (r : string + A) : M A :=
  match r with
  | inl msg => throw (Foreign msg)
  | inr a => mret a
  end.

(** Access to an attribute of an object that may be [None]. *)
Definition deref {A} (o : option A) : M A :=
  match o with
  | Some a => mret a
  | None => throw AttributeError
  end.

(** [d[k]] *)
Definition getitem (d : dict pyval) (k : string) : M pyval :=
  match d !! k with
  | Some v => mret v
  | None => throw (KeyError k)
  end.

(** [params.get(key) or {}] *)
Definition section_or_empty (key : string) : M (dict pyval) := fun w =>
  (Return (default ∅ (params w !! key)), w).

(** An assignment [d[k] = v] where [d] was bound by
    [d = params.get(key) or {}]: [d] is the entry of [params] itself
    unless that entry is missing or empty, in which case [d] is a fresh
    dictionary the caller never sees. The updated [d] is returned. *)
Definition setitem (key : string) (d : dict pyval) (k : string) (v : pyval)
  : M (dict pyval) := fun w =>
  let d' := <[k := v]> d in
  let ps := match params w !! key with
            | Some old => if bool_decide (old = ∅) then params w
                          else <[key := d']> (params w)
            | None => params w
            end in
  (Return d', World (self w) ps (stdout w) (submitted w)).

(** [print(d)] *)
Definition print (d : dict R) : M unit := fun w =>
  (Return tt, World (self w) (params w) (stdout w ++ [d]) (submitted w)).

(** [self.execute(qc)] *)
Definition self_execute (qc : option QuantumCircuit) : M result_t := fun w =>
  call (execute qc)
       (World (self w) (params w) (stdout w) (submitted w ++ [qc])).

(** [len(v)] *)
Definition py_len (v : pyval) : M Z :=
  match v with
  | PStr s => mret (Z.of_nat (String.length s))
  | PList l | PTuple l => mret (Z.of_nat (length l))
  | _ => throw TypeError
  end.

(** [a.shape[0]] *)
Definition shape0 (a : ndarray) : M Z :=
  match shape a with
  | n :: _ => mret (Z.of_nat n)
  | [] => throw IndexError
  end.

(** [assert test, msg] *)
Definition py_assert (test : pyval) (msg : string) : M unit :=
  if truthy test then mret tt else throw (raised "AssertionError" (AssertionError msg)).

(** [invec + tail] for a list [tail] *)
Definition list_concat (invec : pyval) (tail : list pyval) : M (list pyval) :=
  match invec with
  | PList l => mret (l ++ tail)
  | _ => throw TypeError
  end.

(** [x[0]+1j*x[1] if isinstance(x, list) else x] *)
Definition to_amplitude (x : pyval) : M pyval :=
  match x with
  | PList (re :: im :: _) =>
      match as_number re, as_number im with
      | Some a, Some b => mret (PNum (Cadd a (Cmul Ci b)))
      | _, _ => throw TypeError
      end
  | PList _ => throw IndexError
  | _ => mret x
  end.

(** The entries that iterating over [v] yields. *)
Definition py_iter (v : pyval) : M (list pyval) :=
  match v with
  | PList l | PTuple l => mret l
  | PStr s => mret (map (fun c => PStr (String c "")) (list_ascii_of_string s))
  | _ => throw TypeError
  end.

(** [list(map(f, entries))] *)
Fixpoint map_M {A B} (f : A -> M B) (l : list A) : M (list B) :=
  match l with
  | [] => mret []
  | x :: l' => y ← f x; ys ← map_M f l'; mret (y :: ys)
  end.

(** *** [HHL.init_args] *)
Definition init_args (matrix : ndarray) (invec : list pyval) (eigs : eigs_t)
    (init_state : init_state_t) (reciprocal : reciprocal_t) (mode : pyval)
    (num_q num_a : nat) : M unit :=
  modify (fun s =>
    mkHHL (_backend s) (Some matrix) (Some invec) (Some eigs) (Some init_state)
          (Some reciprocal) (_circuit s) (_io_register s)
          (_eigenvalue_register s) (_ancilla_register s) (_success_bit s)
          num_q num_a mode (_ret s)).

(** *** [HHL.init_params] *)
Definition init_params (matrix : matrix_arg) : M unit :=
  _ ← match matrix with
      | Obj PNone =>
          throw (raised "AlgorithmError" (AlgorithmError "Matrix instance is required."))
      | _ => mret tt
      end;
  let matrix := match matrix with Arr a => a | Obj v => np_array v end in
  hhl_params ← section_or_empty SECTION_KEY_ALGORITHM;
  let mode := dict_get hhl_params PROP_MODE in
  _ ← (if py_eq_str mode "exact_simulation" then
         backend ← get _backend;
         if negb (py_eq_str backend "local_statevector_simulator") then
           throw (raised "AlgorithmError"
                    (AlgorithmError "statevector simulator required for exact_simulation"))
         else mret tt
       else if py_eq_str mode "state_tomography" then
         throw (raised "NotImplementedError" NotImplementedError)
       else mret tt);
  eigs_params ← section_or_empty SECTION_KEY_EIGS;
  eigs_name ← getitem eigs_params "name";
  eigs ← call (get_eigs_instance eigs_name);
  eigs ← call (eigs_init_params eigs eigs_params matrix);
  '(num_q, num_a) ← call (get_register_sizes eigs);
  init_state_params ← section_or_empty SECTION_KEY_INITIAL_STATE;
  '(invec, init_state_params) ←
    (if py_eq_str (dict_get init_state_params "name") "CUSTOM" then
       invec ← getitem init_state_params "state_vector";
       n ← shape0 matrix;
       sv ← getitem init_state_params "state_vector";
       m ← py_len sv;
       _ ← py_assert (PTuple [PBool (bool_decide (n = m)); PStr "Check input vector size!"]) "";
       k ← py_len invec;
       tmpvec ← list_concat invec (list_repeat (2 ^ Z.of_nat num_q - k) (PInt 0));
       init_state_params ←
         setitem SECTION_KEY_INITIAL_STATE init_state_params "state_vector" (PList tmpvec);
       mret (invec, init_state_params)
     else mret (PList [PInt 1; PInt 0], init_state_params));
  init_state_params ←
    setitem SECTION_KEY_INITIAL_STATE init_state_params "num_qubits"
            (PInt (Z.of_nat num_q));
  init_state_name ← getitem init_state_params "name";
  init_state ← call (get_initial_state_instance init_state_name);
  init_state ← call (init_state_init_params init_state init_state_params);
  entries ← py_iter invec;
  invec ← map_M to_amplitude entries;
  reciprocal_params ← section_or_empty SECTION_KEY_RECIPROCAL;
  reciprocal_params ←
    setitem SECTION_KEY_RECIPROCAL reciprocal_params "negative_evals"
            (_negative_evals eigs);
  reci_name ← getitem reciprocal_params "name";
  reci ← call (get_reciprocal_instance reci_name);
  reci ← call (reciprocal_init_params reci reciprocal_params);
  init_args matrix invec eigs init_state reci mode num_q num_a.

(** *** [HHL._construct_circuit] *)

Definition set_eigs (e : eigs_t) (s : HHL) : HHL :=
  mkHHL (_backend s) (_matrix s) (_invec s) (Some e) (_init_state s)
        (_reciprocal s) (_circuit s) (_io_register s) (_eigenvalue_register s)
        (_ancilla_register s) (_success_bit s) (_num_q s) (_num_a s) (_mode s)
        (_ret s).

Definition set_init_state (i : init_state_t) (s : HHL) : HHL :=
  mkHHL (_backend s) (_matrix s) (_invec s) (_eigs s) (Some i)
        (_reciprocal s) (_circuit s) (_io_register s) (_eigenvalue_register s)
        (_ancilla_register s) (_success_bit s) (_num_q s) (_num_a s) (_mode s)
        (_ret s).

Definition set_reciprocal (r : reciprocal_t) (s : HHL) : HHL :=
  mkHHL (_backend s) (_matrix s) (_invec s) (_eigs s) (_init_state s)
        (Some r) (_circuit s) (_io_register s) (_eigenvalue_register s)
        (_ancilla_register s) (_success_bit s) (_num_q s) (_num_a s) (_mode s)
        (_ret s).

Definition set_success_bit (c : register) (s : HHL) : HHL :=
  mkHHL (_backend s) (_matrix s) (_invec s) (_eigs s) (_init_state s)
        (_reciprocal s) (_circuit s) (_io_register s) (_eigenvalue_register s)
        (_ancilla_register s) (Some c) (_num_q s) (_num_a s) (_mode s)
        (_ret s).

(** The four assignments that close [_construct_circuit]. *)
Definition set_artifact (q : register) (a s' : option register)
    (qc : QuantumCircuit) (s : HHL) : HHL :=
  mkHHL (_backend s) (_matrix s) (_invec s) (_eigs s) (_init_state s)
        (_reciprocal s) (Some qc) (Some q) a s' (_success_bit s)
        (_num_q s) (_num_a s) (_mode s) (_ret s).

Definition set_ret (r : dict retval) (s : HHL) : HHL :=
  mkHHL (_backend s) (_matrix s) (_invec s) (_eigs s) (_init_state s)
        (_reciprocal s) (_circuit s) (_io_register s) (_eigenvalue_register s)
        (_ancilla_register s) (_success_bit s) (_num_q s) (_num_a s) (_mode s)
        r.

(** Lines 170 to 185: the register [q], the handles [a] and [s] and the
    circuit [qc] before the measurement is considered. *)
Definition compose_fragments
  : M (register * option register * option register * QuantumCircuit) :=
  num_q ← get _num_q;
  let q := QuantumRegister num_q (Some "io") in
  let qc := circuit_of q in
  (* InitialState *)
  init_state ← get _init_state;
  init_state ← deref init_state;
  '(frag, init_state) ← call (init_state_construct_circuit init_state "circuit" q);
  _ ← modify (set_init_state init_state);
  let qc := iadd qc frag in
  (* EigenvalueEstimation (QPE) *)
  eigs ← get _eigs;
  eigs ← deref eigs;
  '(frag, eigs) ← call (eigs_construct_circuit eigs "circuit" q);
  _ ← modify (set_eigs eigs);
  let qc := iadd qc frag in
  let a := _output_register eigs in
  (* Reciprocal calculation with rotation *)
  reci ← get _reciprocal;
  reci ← deref reci;
  '(frag, reci) ← call (reciprocal_construct_circuit reci "circuit" a);
  _ ← modify (set_reciprocal reci);
  let qc := iadd qc frag in
  let s := _anc reci in
  (* Inverse EigenvalueEstimation *)
  eigs ← get _eigs;
  eigs ← deref eigs;
  '(frag, eigs) ← call (construct_inverse eigs "circuit");
  _ ← modify (set_eigs eigs);
  let qc := iadd qc frag in
  mret (q, a, s, qc).

Definition _construct_circuit : M unit :=
  '(q, a, s, qc) ← compose_fragments;
  (* Measurement of the ancilla qubit *)
  mode ← get _mode;
  qc ← (if negb (py_eq_str mode "exact_simulation") then
          let c := ClassicalRegister 1 None in
          let qc := add qc c in
          let qc := measure qc s c in
          _ ← modify (set_success_bit c);
          mret qc
        else mret qc);
  modify (set_artifact q a s qc).

(** *** [HHL._exact_simulation] *)
Definition _exact_simulation : M unit :=
  circuit ← get _circuit;
  res ← self_execute circuit;
  sv ← call (get_statevector res);
  circuit ← get _circuit;
  circuit ← deref circuit;
  let qregs := get_qregs circuit in
  let num := foldl (fun num qreg => (num + reg_len qreg)%nat) 0%nat qregs in
  num_q ← get _num_q;
  let l := post_process sv num num_q in
  print (l_d l).

(** *** [HHL._state_tomography] *)
Definition _state_tomography : M unit := mret tt.

(** *** [HHL.run] *)
Definition run : M (dict retval) :=
  _ ← _construct_circuit;
  mode ← get _mode;
  _ ← (if py_eq_str mode "circuit" then
         ret_ ← get _ret;
         circuit ← get _circuit;
         _ ← modify (set_ret (<["circuit" := RCircuit circuit]> ret_));
         io ← get _io_register;
         ev ← get _eigenvalue_register;
         anc ← get _ancilla_register;
         sb ← get _success_bit;
         let regs :=
           <["self._success_bit" := sb]>
             (<["ancilla_register" := anc]>
                (<["eigenvalue_register" := ev]>
                   (<["io_register" := io]> ∅))) in
         ret_ ← get _ret;
         modify (set_ret (<["regs" := RRegs regs]> ret_))
       else if py_eq_str mode "exact_simulation" then _exact_simulation
       else if py_eq_str mode "state_tomography" then _state_tomography
       else mret tt);
  get _ret.

End HHL.

(** ** Notions used in the statements *)

(** The part of the state that the composition of the fragments never
    writes. *)
Definition same_config `{Components} (w w' : world) : Prop :=
  _backend (self w') = _backend (self w) /\
  _num_q (self w') = _num_q (self w) /\
  _mode (self w') = _mode (self w) /\
  _ret (self w') = _ret (self w) /\
  _success_bit (self w') = _success_bit (self w) /\
  _circuit (self w') = _circuit (self w) /\
  params w' = params w /\ stdout w' = stdout w /\ submitted w' = submitted w.

(** The mode that [init_params] reads from the caller's parameters. *)
Definition requested_mode `{Components} (w : world) : pyval :=
  dict_get (default ∅ (params w !! SECTION_KEY_ALGORITHM)) PROP_MODE.

(** The call [m] never ends in an [AssertionError]. *)
Definition never_asserts `{Components} {A} (m : M A) : Prop :=
  forall w msg, fst (m w) <> Raise (AssertionError msg).

(** ** State vectors of three qubits used as test inputs *)

(** All the amplitude mass at index 6 (binary 110). *)
Definition sv_at6 : list complex := [C0; C0; C0; C0; C0; C0; C1; C0].

(** All the amplitude mass at index 2 (binary 010). *)
Definition sv_at2 : list complex := [C0; C0; C1; C0; C0; C0; C0; C0].

(** The amplitude [i] at index 6. *)
Definition sv_imag6 : list complex := [C0; C0; C0; C0; C0; C0; Ci; C0].

(** Amplitude 1 at index 0 and the amplitude [1e-9] at index 6. *)
Definition sv_tiny6 : list complex :=
  [C1; C0; C0; C0; C0; C0; Cx 1e-9 0; C0].

(** ** An instantiation of the interface used to run the model

    Components that accept every configuration: one input qubit, one
    eigenvalue qubit and one ancilla; the backend answers every circuit with
    the state vector [sv]. *)

Definition reg_io : register := QuantumRegister 1 (Some "io").
Definition reg_eig : register := QuantumRegister 1 (Some "eig").
Definition reg_anc : register := QuantumRegister 1 (Some "anc").

Definition stub (sv : list complex) : Components := {|
  eigs_t := unit;
  init_state_t := unit;
  reciprocal_t := unit;
  result_t := list complex;
  SECTION_KEY_ALGORITHM := "algorithm";
  SECTION_KEY_EIGS := "eigs";
  SECTION_KEY_INITIAL_STATE := "initial_state";
  SECTION_KEY_RECIPROCAL := "reciprocal";
  get_eigs_instance := fun _ => inr tt;
  eigs_init_params := fun _ _ _ => inr tt;
  get_register_sizes := fun _ => inr (1%nat, 1%nat);
  _negative_evals := fun _ => PBool false;
  eigs_construct_circuit := fun _ _ q =>
    inr (Circuit [q; reg_eig] [Gate "qpe" [q; reg_eig]], tt);
  _output_register := fun _ => Some reg_eig;
  construct_inverse := fun _ _ =>
    inr (Circuit [reg_io; reg_eig] [Gate "qpe_dg" [reg_io; reg_eig]], tt);
  get_initial_state_instance := fun _ => inr tt;
  init_state_init_params := fun _ _ => inr tt;
  init_state_construct_circuit := fun _ _ q => inr (Circuit [q] [Gate "init" [q]], tt);
  get_reciprocal_instance := fun _ => inr tt;
  reciprocal_init_params := fun _ _ => inr tt;
  reciprocal_construct_circuit := fun _ _ a =>
    inr (Circuit [reg_eig; reg_anc] [Gate "rot" [reg_eig; reg_anc]], tt);
  _anc := fun _ => Some reg_anc;
  execute := fun _ => inr sv;
  get_statevector := fun r => inr r
|}.

(** The circuit the stub components compose, without measurement. *)
Definition stub_base : QuantumCircuit :=
  Circuit [reg_io; reg_eig; reg_anc]
          [Gate "init" [reg_io]; Gate "qpe" [reg_io; reg_eig];
           Gate "rot" [reg_eig; reg_anc]; Gate "qpe_dg" [reg_io; reg_eig]].

(** A 2 x 2 identity matrix and a 1 x 3 matrix. *)
Definition matrix_id2 : pyval :=
  PList [PList [PInt 1; PInt 0]; PList [PInt 0; PInt 1]].
Definition matrix_1x3 : pyval := PList [PList [PInt 1; PInt 2; PInt 3]].

(** A parameter dictionary naming the three components, with the given
    entries in its algorithm and initial-state sections. *)
Definition params_of (algorithm initial_state : dict pyval) : dict (dict pyval) :=
  <["algorithm" := algorithm]>
    (<["eigs" := {["name" := PStr "QPE"]}]>
       (<["initial_state" := initial_state]>
          (<["reciprocal" := {["name" := PStr "LOOKUP"]}]> ∅))).

(** A new object whose base class holds [backend], before any
    configuration, together with the caller's [ps]. *)
Definition fresh `{Components} (backend : string) (ps : dict (dict pyval)) : world :=
  World (__init__ (PStr backend)) ps [] [].

(** The object after [init_args] with the stub components and [mode]. *)
Definition configured (sv : list complex) (mode : string) : @world (stub sv) :=
  snd (@init_args (stub sv) (np_array matrix_id2) [PInt 1; PInt 0] tt tt tt
         (PStr mode) 1 1
         (@fresh (stub sv) "local_statevector_simulator" ∅)).

(** [run()] and [init_params(params, matrix)] on an object with the stub
    components. *)
Definition run_stub (sv : list complex) (w : @world (stub sv))
  : outcome (dict retval) * @world (stub sv) :=
  @run (stub sv) w.

Definition init_params_stub (sv : list complex) (matrix : matrix_arg)
    (w : @world (stub sv)) : outcome unit * @world (stub sv) :=
  @init_params (stub sv) matrix w.

(** A configuration asking for "exact_simulation" on an object whose
    backend is the QASM simulator. *)
Definition w_qasm_exact : @world (stub sv_at6) :=
  @fresh (stub sv_at6) "local_qasm_simulator"
         (params_of {["mode" := PStr "exact_simulation"]} {["name" := PStr "ZERO"]}).

(** A configuration asking for "state_tomography". *)
Definition w_tomography : @world (stub sv_at6) :=
  @fresh (stub sv_at6) "local_statevector_simulator"
         (params_of {["mode" := PStr "state_tomography"]} {["name" := PStr "ZERO"]}).

(** A default configuration (no mode given, ZERO initial state). *)
Definition w_default : @world (stub sv_at6) :=
  @fresh (stub sv_at6) "local_statevector_simulator"
         (params_of ∅ {["name" := PStr "ZERO"]}).

(** A CUSTOM initial state with the given state vector. *)
Definition w_custom (state_vector : list pyval) : @world (stub sv_at6) :=
  @fresh (stub sv_at6) "local_statevector_simulator"
         (params_of ∅ (<["state_vector" := PList state_vector]>
                         {["name" := PStr "CUSTOM"]})).

(** Components for a circuit of three qubits, two of them input qubits:
    the eigenvalue estimation works in place on the two-qubit input
    register, which is also its output register, and the reciprocal adds
    its one ancilla. The backend answers every circuit with [sv]. *)
Definition reg_io2 : register := QuantumRegister 2 (Some "io").

Definition stub_inplace (sv : list complex) : Components := {|
  eigs_t := unit;
  init_state_t := unit;
  reciprocal_t := unit;
  result_t := list complex;
  SECTION_KEY_ALGORITHM := "algorithm";
  SECTION_KEY_EIGS := "eigs";
  SECTION_KEY_INITIAL_STATE := "initial_state";
  SECTION_KEY_RECIPROCAL := "reciprocal";
  get_eigs_instance := fun _ => inr tt;
  eigs_init_params := fun _ _ _ => inr tt;
  get_register_sizes := fun _ => inr (2%nat, 0%nat);
  _negative_evals := fun _ => PBool false;
  eigs_construct_circuit := fun _ _ q => inr (Circuit [q] [Gate "qpe" [q]], tt);
  _output_register := fun _ => Some reg_io2;
  construct_inverse := fun _ _ =>
    inr (Circuit [reg_io2] [Gate "qpe_dg" [reg_io2]], tt);
  get_initial_state_instance := fun _ => inr tt;
  init_state_init_params := fun _ _ => inr tt;
  init_state_construct_circuit := fun _ _ q => inr (Circuit [q] [Gate "init" [q]], tt);
  get_reciprocal_instance := fun _ => inr tt;
  reciprocal_init_params := fun _ _ => inr tt;
  reciprocal_construct_circuit := fun _ _ a =>
    inr (Circuit [reg_io2; reg_anc] [Gate "rot" [reg_io2; reg_anc]], tt);
  _anc := fun _ => Some reg_anc;
  execute := fun _ => inr sv;
  get_statevector := fun r => inr r
|}.

(** A 4 x 4 identity matrix. *)
Definition matrix_id4 : pyval :=
  PList [PList [PInt 1; PInt 0; PInt 0; PInt 0]; PList [PInt 0; PInt 1; PInt 0; PInt 0];
         PList [PInt 0; PInt 0; PInt 1; PInt 0]; PList [PInt 0; PInt 0; PInt 0; PInt 1]].

(** The object after [init_args] with these components, two input qubits
    and the mode "exact_simulation". *)
Definition configured_inplace (sv : list complex) : @world (stub_inplace sv) :=
  snd (@init_args (stub_inplace sv) (np_array matrix_id4)
         [PInt 1; PInt 0; PInt 0; PInt 0] tt tt tt
         (PStr "exact_simulation") 2 0
         (@fresh (stub_inplace sv) "local_statevector_simulator" ∅)).

(** The object once [_construct_circuit] has run, as [run] leaves it for
    [_exact_simulation]. *)
Definition constructed_inplace (sv : list complex) : @world (stub_inplace sv) :=
  snd (@_construct_circuit (stub_inplace sv) (configured_inplace sv)).

(** The handles returned in "circuit" mode with the stub components. *)
Definition stub_handles : dict (option register) :=
  <["self._success_bit" := Some (ClassicalRegister 1 None)]>
    (<["ancilla_register" := Some reg_anc]>
       (<["eigenvalue_register" := Some reg_eig]>
          (<["io_register" := Some reg_io]> ∅))).

Definition stub_result : dict retval :=
  <["regs" := RRegs stub_handles]>
    (<["circuit" :=
         RCircuit (Some (measure (add stub_base (ClassicalRegister 1 None))
                                 (Some reg_anc) (ClassicalRegister 1 None)))]> ∅).

(** Following the spec's words (section 4.4, steps a to c): amplitudes of
    magnitude at most [eps] are taken as zero, an index is in the success
    branch when it is at least [2^(N-1)], and the success probability is
    the sum of the squared magnitudes over that branch. *)
Fixpoint branch_mass_from (eps : R) (N i : nat) (sv : list complex) : R :=
  match sv with
  | [] => 0
  | v :: sv' =>
      (if bool_decide (2 ^ (N - 1) <= i)%nat && negb (bool_decide (Cabs v <= eps))
       then Cabs v ^ 2 else 0)
      + branch_mass_from eps N (S i) sv'
  end.

Definition spec_success_probability (sv : list complex) (N : nat) : R :=
  branch_mass_from 1e-10 N 0 sv.

(** The sum of the squares of the values of a result mapping. *)
Definition dict_sum_sq (d : gmap string R) : R :=
  map_fold (fun _ v acc => v ^ 2 + acc) 0 d.

(** ** The float64 routines of the renormalisation

    numpy evaluates [np.sum(np.abs(a)**2)], [np.linalg.norm(a)] and the
    division [a / r] in float64, inside numpy and the BLAS it is linked
    with: they appear as an interface. [exact] is the instance without
    rounding that [post_process] is written with. *)

Class Float64 : Type := {
  fl_sum_abs_sq : list complex -> R;       (* [np.sum(np.abs(a)**2)] *)
  fl_norm : list complex -> R;             (* [np.linalg.norm(a)] *)
  fl_div : complex -> R -> complex         (* an entry of [a / r] *)
}.

Definition exact : Float64 := {|
  fl_sum_abs_sq := np.sum_abs_sq;
  fl_norm := np.linalg_norm;
  fl_div := Cdiv_real
|}.

(** The amplitudes of the success branch before they are renormalised:
    [vals[correct]] on line 212. *)
Definition success_branch (sv : list complex) (num : nat) : list complex :=
  let idxs := np.where_ (noise_mask sv) in
  let vals := np.take sv idxs in
  let correct := map (fun i => ge_pow2 i num) idxs in
  np.compress correct vals.

(** [post_process] with the float64 routines as they are given. *)
Definition post_process_fl `{Float64} (sv : list complex) (num num_q : nat) : locals :=
  let idxs := np.where_ (noise_mask sv) in
  let vals := np.take sv idxs in
  let correct := map (fun i => ge_pow2 i num) idxs in
  let p := fl_sum_abs_sq (np.compress correct vals) in
  let idxs := np.compress correct idxs in
  let vals := np.compress correct vals in
  let vals := map (fun v => fl_div v (fl_norm vals)) vals in
  let d := build_dict num num_q idxs vals in
  Locals idxs vals p d.

(** [x] is [y] up to the relative error [eps]. *)
Definition close (eps x y : R) : Prop := Rabs (x - y) <= eps * Rabs y.

(** On the vector [a] the norm and the division by it are accurate to the
    relative error [eps], in the real and in the imaginary part. *)
Definition accurate_on `{Float64} (eps : R) (a : list complex) : Prop :=
  close eps (fl_norm a) (np.linalg_norm a) /\
  Forall (fun v =>
            close eps (real (fl_div v (fl_norm a))) (real v / fl_norm a) /\
            close eps (imag (fl_div v (fl_norm a))) (imag v / fl_norm a)) a.

(** The key under which the amplitude at [idx] is stored. *)
Definition key_of (num num_q idx : nat) : string :=
  slice_last num_q (np.binary_repr idx num).

(** Routines that round: the norm comes out too large by the relative
    error [1e-12]. *)
Definition rounding : Float64 := {|
  fl_sum_abs_sq := np.sum_abs_sq;
  fl_norm := fun a => np.linalg_norm a * (1 + 1e-12);
  fl_div := Cdiv_real
|}.

(** A state vector of three qubits with the amplitudes 0.48 and 0.64 i in
    the success branch and 0.6 outside it. *)
Definition sv_split : list complex :=
  [C0; Cx 0.6 0; C0; C0; Cx 0.48 0; Cx 0 0.64; C0; C0].

(** ** Notions used to state what [init_params] checks *)





(** The caller asks for a CUSTOM initial state. *)
Definition custom_state `{Components} (w : world) : bool :=
  py_eq_str (dict_get (default ∅ (params w !! SECTION_KEY_INITIAL_STATE)) "name")
            "CUSTOM".



(** * Properties *)

(** ** Arithmetic of amplitudes *)

Lemma Cabs_sq (z : complex) : Cabs z ^ 2 = real z * real z + imag z * imag z.
Proof.
  unfold Cabs. simpl. rewrite Rmult_1_r. apply sqrt_sqrt. nra.
Qed.

Lemma Cabs_nonneg (z : complex) : 0 <= Cabs z.
Proof. apply sqrt_pos. Qed.

Lemma Cabs_real (x : R) : 0 <= x -> Cabs (Cx x 0) = x.
Proof.
  intros Hx. unfold Cabs. simpl.
  replace (x * x + 0 * 0) with (x * x) by ring. now apply sqrt_square.
Qed.

Lemma Cabs_imag (y : R) : 0 <= y -> Cabs (Cx 0 y) = y.
Proof.
  intros Hy. unfold Cabs. simpl.
  replace (0 * 0 + y * y) with (y * y) by ring. now apply sqrt_square.
Qed.

Lemma Csub_C0 (z : complex) : Csub z C0 = z.
Proof. destruct z as [x y]. unfold Csub. simpl. f_equal; ring. Qed.

Lemma Cabs_C0 : Cabs C0 = 0.
Proof. unfold C0. apply Cabs_real. lra. Qed.

(** With [b = 0] the relative tolerance plays no part: the test of
    [noise_mask] compares the magnitude with [atol]. *)
Lemma isclose_zero (v : complex) (rtol atol : R) :
  np.isclose v C0 rtol atol = bool_decide (Cabs v <= atol).
Proof.
  unfold np.isclose. rewrite Csub_C0, Cabs_C0.
  apply bool_decide_ext. split; intros H; lra.
Qed.

Lemma noise_mask_cons (v : complex) (sv : list complex) :
  noise_mask (v :: sv) = negb (bool_decide (Cabs v <= 1e-8)) :: noise_mask sv.
Proof.
  unfold noise_mask. simpl. now rewrite isclose_zero.
Qed.

Lemma keep_small (v : complex) :
  Cabs v <= 1e-8 -> negb (bool_decide (Cabs v <= 1e-8)) = false.
Proof. intros H. now rewrite bool_decide_eq_true_2. Qed.

Lemma keep_large (v : complex) :
  1e-8 < Cabs v -> negb (bool_decide (Cabs v <= 1e-8)) = true.
Proof. intros H. rewrite bool_decide_eq_false_2; [reflexivity | lra]. Qed.

(** ** The threshold test *)

Lemma ge_pow2_spec (idx num : nat) :
  (1 <= num)%nat -> ge_pow2 idx num = bool_decide (2 ^ (num - 1) <= idx)%nat.
Proof.
  intros Hn. unfold ge_pow2, py_pow2.
  destruct (Z.leb_spec 0 (Z.of_nat num - 1)) as [_|H]; [|lia].
  unfold Qle_bool. simpl. rewrite !Z.mul_1_r.
  replace (Z.of_nat num - 1)%Z with (Z.of_nat (num - 1)) by lia.
  replace (2 ^ Z.of_nat (num - 1))%Z with (Z.of_nat (2 ^ (num - 1))).
  2:{ rewrite Nat2Z.inj_pow. reflexivity. }
  destruct (Z.leb_spec (Z.of_nat (2 ^ (num - 1))) (Z.of_nat idx)).
  - symmetry. apply bool_decide_eq_true_2. lia.
  - symmetry. apply bool_decide_eq_false_2. lia.
Qed.

(** ** Selection of the success branch *)

(** The indices that [np.where] yields lie inside the array, so that
    indexing with them yields one amplitude per index. *)
Lemma where_from_bound (k : nat) (mask : list bool) :
  Forall (fun i => (i < k + length mask)%nat) (np.where_from k mask).
Proof.
  revert k. induction mask as [|b mask IH]; intros k; simpl; [constructor|].
  specialize (IH (S k)).
  assert (Hrest : Forall (fun i => (i < k + S (length mask))%nat)
                         (np.where_from (S k) mask)).
  { eapply Forall_impl; [exact IH|]. simpl. intros i Hi. lia. }
  destruct b; [constructor; [lia|exact Hrest]|exact Hrest].
Qed.

Lemma take_length {A} (a : list A) (idxs : list nat) :
  Forall (fun i => (i < length a)%nat) idxs ->
  length (np.take a idxs) = length idxs.
Proof.
  unfold np.take. induction 1 as [|i idxs Hi _ IH]; [reflexivity|].
  cbn [omap list_omap]. destruct (lookup_lt_is_Some_2 a i Hi) as [x ->].
  cbn [length]. f_equal. exact IH.
Qed.

Lemma take_where_length (sv : list complex) :
  length (np.take sv (np.where_ (noise_mask sv)))
  = length (np.where_ (noise_mask sv)).
Proof.
  apply take_length. unfold np.where_.
  eapply Forall_impl; [apply where_from_bound|].
  simpl. intros i Hi. unfold noise_mask in Hi. now rewrite length_map in Hi.
Qed.

(** The probability computed by the code: the branch mass with the
    threshold [1e-8] that [np.isclose] applies. *)
Lemma p_from (N : nat) (pre suf : list complex) :
  (1 <= N)%nat ->
  let idxs := np.where_from (length pre) (noise_mask suf) in
  np.sum_abs_sq
    (np.compress (map (fun i => ge_pow2 i N) idxs) (np.take (pre ++ suf) idxs))
  = branch_mass_from 1e-8 N (length pre) suf.
Proof.
  intros HN. revert pre. induction suf as [|v suf IH]; intros pre idxs.
  - reflexivity.
  - subst idxs. rewrite noise_mask_cons. simpl.
    specialize (IH (pre ++ [v])). simpl in IH.
    rewrite <- app_assoc, length_app in IH. simpl in IH.
    rewrite Nat.add_1_r in IH.
    destruct (bool_decide (Cabs v <= 1e-8)); simpl.
    + rewrite andb_false_r, Rplus_0_l. exact IH.
    + rewrite andb_true_r, list_lookup_middle by reflexivity.
      rewrite (ge_pow2_spec _ _ HN).
      destruct (bool_decide (2 ^ (N - 1) <= length pre)%nat).
      * unfold np.sum_abs_sq in *. cbn [map Rsum foldr]. f_equal. exact IH.
      * rewrite Rplus_0_l. exact IH.
Qed.

Lemma p_code (sv : list complex) (N num_q : nat) :
  (1 <= N)%nat -> l_p (post_process sv N num_q) = branch_mass_from 1e-8 N 0 sv.
Proof.
  intros HN. unfold post_process. simpl. exact (p_from N [] sv HN).
Qed.

(** ** Renormalisation *)

Lemma Rsum_cons (x : R) (l : list R) : Rsum (x :: l) = x + Rsum l.
Proof. reflexivity. Qed.

Lemma sum_abs_sq_cons (v : complex) (w : list complex) :
  np.sum_abs_sq (v :: w) = Cabs v ^ 2 + np.sum_abs_sq w.
Proof. reflexivity. Qed.

Lemma norm_sq (w : list complex) :
  Rsum (map (fun v => real v * real v) w) + Rsum (map (fun v => imag v * imag v) w)
  = np.sum_abs_sq w.
Proof.
  induction w as [|v w IH].
  - unfold np.sum_abs_sq. simpl. ring.
  - rewrite sum_abs_sq_cons, <- IH, Cabs_sq, !map_cons, !Rsum_cons. ring.
Qed.

Lemma sum_abs_sq_nonneg (w : list complex) : 0 <= np.sum_abs_sq w.
Proof.
  induction w as [|v w IH].
  - unfold np.sum_abs_sq. simpl. lra.
  - rewrite sum_abs_sq_cons, Cabs_sq. nra.
Qed.

Lemma linalg_norm_sq (w : list complex) : np.linalg_norm w ^ 2 = np.sum_abs_sq w.
Proof.
  unfold np.linalg_norm. rewrite norm_sq. simpl. rewrite Rmult_1_r.
  apply sqrt_sqrt, sum_abs_sq_nonneg.
Qed.

Lemma sum_abs_sq_divide (w : list complex) (n : R) :
  n <> 0 -> np.sum_abs_sq (np.divide w n) = np.sum_abs_sq w / n ^ 2.
Proof.
  intros Hn. induction w as [|v w IH].
  - unfold np.sum_abs_sq. simpl. field. exact Hn.
  - unfold np.divide in *. rewrite map_cons, !sum_abs_sq_cons, IH, !Cabs_sq.
    simpl. field. exact Hn.
Qed.

(** The renormalised vector has unit mass as soon as the success
    probability is positive. *)
Lemma renormalised_unit (sv : list complex) (num num_q : nat) :
  0 < l_p (post_process sv num num_q) ->
  np.sum_abs_sq (l_vals (post_process sv num num_q)) = 1.
Proof.
  unfold post_process. cbn [l_p l_vals].
  set (w := np.compress _ _). intros Hp.
  assert (Hn : np.linalg_norm w <> 0).
  { intros H0. pose proof (linalg_norm_sq w) as Hs. rewrite H0 in Hs.
    simpl in Hs. lra. }
  rewrite sum_abs_sq_divide by exact Hn.
  rewrite linalg_norm_sq. field. lra.
Qed.

(** ** Evaluation on the test inputs *)

Lemma keep_C0 : negb (bool_decide (Cabs C0 <= 1e-8)) = false.
Proof. apply keep_small. rewrite Cabs_C0. lra. Qed.

Lemma Cabs_C1 : Cabs C1 = 1.
Proof. unfold C1. apply Cabs_real. lra. Qed.

Lemma Cabs_Ci : Cabs Ci = 1.
Proof. unfold Ci. apply Cabs_imag. lra. Qed.

Lemma keep_C1 : negb (bool_decide (Cabs C1 <= 1e-8)) = true.
Proof. apply keep_large. rewrite Cabs_C1. lra. Qed.

Lemma keep_Ci : negb (bool_decide (Cabs Ci <= 1e-8)) = true.
Proof. apply keep_large. rewrite Cabs_Ci. lra. Qed.

Lemma keep_tiny : negb (bool_decide (Cabs (Cx 1e-9 0) <= 1e-8)) = false.
Proof. apply keep_small. rewrite Cabs_real; lra. Qed.

Ltac eval_mask :=
  repeat rewrite noise_mask_cons;
  rewrite ?keep_C0, ?keep_C1, ?keep_Ci, ?keep_tiny;
  change (noise_mask []) with (@nil bool).

Lemma sum_abs_sq_single (v : complex) : np.sum_abs_sq [v] = Cabs v ^ 2.
Proof. unfold np.sum_abs_sq. simpl. ring. Qed.

Lemma linalg_norm_single (v : complex) : np.linalg_norm [v] = Cabs v.
Proof.
  unfold np.linalg_norm, Cabs. simpl. f_equal. ring.
Qed.

Lemma post_process_at6 (num_q : nat) :
  post_process sv_at6 3 num_q
  = Locals [6%nat] [C1] 1 {[slice_last num_q "110" := 1]}.
Proof.
  unfold post_process, sv_at6. eval_mask. simpl.
  rewrite linalg_norm_single, sum_abs_sq_single, Cabs_C1.
  replace (Cdiv_real C1 1) with C1 by (unfold Cdiv_real, C1; simpl; f_equal; lra).
  replace (1 ^ 2) with 1 by lra.
  reflexivity.
Qed.

Lemma post_process_at2 :
  post_process sv_at2 3 2 = Locals [] [] 0 ∅.
Proof.
  unfold post_process, sv_at2. eval_mask. reflexivity.
Qed.

Lemma post_process_imag6 :
  post_process sv_imag6 3 2 = Locals [6%nat] [Ci] 1 {["10" := 0]}.
Proof.
  unfold post_process, sv_imag6. eval_mask. simpl.
  rewrite linalg_norm_single, sum_abs_sq_single, Cabs_Ci.
  replace (Cdiv_real Ci 1) with Ci by (unfold Cdiv_real, Ci; simpl; f_equal; lra).
  replace (1 ^ 2) with 1 by lra.
  reflexivity.
Qed.

Lemma post_process_tiny6 :
  post_process sv_tiny6 3 2 = Locals [] [] 0 ∅.
Proof.
  unfold post_process, sv_tiny6. eval_mask. reflexivity.
Qed.

(** ** Running the state and exception monad *)

Section MonadLaws.
Context `{Components}.

Lemma bind_inv {A B} (m : M A) (f : A -> M B) w o w' :
  (m ≫= f) w = (o, w') ->
  (exists e, m w = (Raise e, w') /\ o = Raise e) \/
  (exists a w1, m w = (Return a, w1) /\ f a w1 = (o, w')).
Proof.
  unfold mbind, M_bind. destruct (m w) as [[a|e] w1]; intros Hm.
  - right. eauto.
  - left. inversion Hm; subst. eauto.
Qed.

Lemma bind_Return_inv {A B} (m : M A) (f : A -> M B) w b w' :
  (m ≫= f) w = (Return b, w') ->
  exists a w1, m w = (Return a, w1) /\ f a w1 = (Return b, w').
Proof.
  intros Hm. apply bind_inv in Hm as [(e & _ & He)|Hm]; [discriminate|exact Hm].
Qed.

Lemma bind_run {A B} (m : M A) (f : A -> M B) w a w1 :
  m w = (Return a, w1) -> (m ≫= f) w = f a w1.
Proof. unfold mbind, M_bind. now intros ->. Qed.

Lemma bind_raise {A B} (m : M A) (f : A -> M B) w e w1 :
  m w = (Raise e, w1) -> (m ≫= f) w = (Raise e, w1).
Proof. unfold mbind, M_bind. now intros ->. Qed.

Lemma mret_inv {A} (a b : A) w w' :
  (mret a : M A) w = (Return b, w') -> b = a /\ w' = w.
Proof. unfold mret, M_ret. intros Hm. now inversion Hm. Qed.

Lemma get_inv {A} (f : HHL -> A) w b w' :
  get f w = (Return b, w') -> b = f (self w) /\ w' = w.
Proof. unfold get. intros Hm. now inversion Hm. Qed.

Lemma modify_inv (f : HHL -> HHL) w b w' :
  modify f w = (Return b, w') ->
  w' = World (f (self w)) (params w) (stdout w) (submitted w).
Proof. unfold modify. intros Hm. now inversion Hm. Qed.

Lemma call_inv {A} (r : string + A) w b w' :
  call r w = (Return b, w') -> r = inr b /\ w' = w.
Proof.
  unfold call. destruct r as [msg|a]; intros Hm; [discriminate|].
  apply mret_inv in Hm as [-> ->]. easy.
Qed.

Lemma deref_inv {A} (o : option A) w b w' :
  deref o w = (Return b, w') -> o = Some b /\ w' = w.
Proof.
  unfold deref. destruct o as [a|]; intros Hm; [|discriminate].
  apply mret_inv in Hm as [-> ->]. easy.
Qed.

Lemma getitem_inv (d : dict pyval) k w b w' :
  getitem d k w = (Return b, w') -> d !! k = Some b /\ w' = w.
Proof.
  unfold getitem. destruct (d !! k) as [v|]; intros Hm; [|discriminate].
  apply mret_inv in Hm as [-> ->]. easy.
Qed.

Lemma section_or_empty_inv key w b w' :
  section_or_empty key w = (Return b, w') ->
  b = default ∅ (params w !! key) /\ w' = w.
Proof. unfold section_or_empty. intros Hm. now inversion Hm. Qed.

End MonadLaws.

(** Decomposition of a run that returned into the runs of its steps. *)
Ltac inv_M :=
  repeat
    (cbv beta in *;
     match goal with
     | H : (_ ≫= _) _ = (Return _, _) |- _ =>
         let H1 := fresh "Hstep" in
         apply bind_Return_inv in H as (? & ? & H1 & H)
     | H : (let '(_, _) := ?p in _) _ = (Return _, _) |- _ => destruct p
     | H : mret _ _ = (Return _, _) |- _ => apply mret_inv in H as [? ?]; subst
     | H : get _ _ = (Return _, _) |- _ => apply get_inv in H as [? ?]; subst
     | H : modify _ _ = (Return _, _) |- _ => apply modify_inv in H; subst
     | H : call _ _ = (Return _, _) |- _ => apply call_inv in H as [H ?]; subst
     | H : deref _ _ = (Return _, _) |- _ => apply deref_inv in H as [H ?]; subst
     | H : getitem _ _ _ = (Return _, _) |- _ => apply getitem_inv in H as [H ?]; subst
     | H : section_or_empty _ _ = (Return _, _) |- _ =>
         apply section_or_empty_inv in H as [? ?]; subst
     end).

(** ** What the methods leave unchanged *)

Section Frame.
Context `{Components}.

Lemma compose_fragments_frame (w w' : world) r :
  compose_fragments w = (Return r, w') -> same_config w w'.
Proof.
  unfold compose_fragments. intros Hc. inv_M.
  unfold same_config. cbn. tauto.
Qed.
End Frame.

(** ** Circuit construction and the execution modes *)

Section Modes.
Context `{Components}.

Lemma app_longer {A} (l : list A) (x : A) : l <> l ++ [x].
Proof.
  intros Heq. apply (f_equal length) in Heq.
  rewrite length_app in Heq. cbn in Heq. lia.
Qed.

Lemma measure_add_neq (base : QuantumCircuit) s c :
  base <> measure (add base c) s c.
Proof.
  intros Heq. apply (f_equal (fun qc => length (regs qc))) in Heq.
  cbn in Heq. rewrite length_app in Heq. cbn in Heq. lia.
Qed.

(** C6. Whenever the four fragments compose to a circuit [base],
    [_construct_circuit] returns. When the mode differs from
    "exact_simulation" the circuit it stores has the registers of [base]
    followed by one new 1-bit classical register [c], and the instructions
    of [base] followed by one more, the measurement of the success qubit
    [s] into [c]; [c] is kept in [_success_bit]. In "exact_simulation" mode
    the stored circuit is [base] itself: no register and no instruction is
    added, and [_success_bit] is untouched. The measurement is there
    exactly when the mode differs from "exact_simulation". *)
Theorem C6_measurement_iff_not_exact_simulation
    (w w1 : world) (q : register) (a s : option register) (base : QuantumCircuit) :
  compose_fragments w = (Return (q, a, s, base), w1) ->
  exists w' qc,
    _construct_circuit w = (Return tt, w') /\
    _circuit (self w') = Some qc /\
    _ancilla_register (self w') = s /\
    let c := ClassicalRegister 1 None in
    (py_eq_str (_mode (self w)) "exact_simulation" = false ->
     regs qc = regs base ++ [c] /\
     data qc = data base ++ [Measure s c] /\
     _success_bit (self w') = Some c) /\
    (py_eq_str (_mode (self w)) "exact_simulation" = true ->
     qc = base /\ regs qc = regs base /\ data qc = data base /\
     _success_bit (self w') = _success_bit (self w)) /\
    (data qc = data base ++ [Measure s c] <->
     py_eq_str (_mode (self w)) "exact_simulation" = false) /\
    (regs qc = regs base ++ [c] <->
     py_eq_str (_mode (self w)) "exact_simulation" = false) /\
    (qc = measure (add base c) s c /\ _success_bit (self w') = Some c
     <-> py_eq_str (_mode (self w)) "exact_simulation" = false).
Proof.
  intros Hc.
  pose proof (compose_fragments_frame _ _ _ Hc)
    as (_ & _ & Hmode & _ & Hsb & _).
  unfold _construct_circuit. rewrite (bind_run _ _ _ _ _ Hc).
  unfold get at 1. unfold mbind at 1, M_bind at 1. rewrite Hmode.
  destruct (py_eq_str (_mode (self w)) "exact_simulation") eqn:Hm.
  - eexists _, _. split; [reflexivity|]. cbn.
    split; [reflexivity|]. split; [reflexivity|].
    split; [discriminate|].
    split; [intros _; repeat split; exact Hsb|].
    split; [split; [intros Hd; now apply app_longer in Hd|discriminate]|].
    split; [split; [intros Hd; now apply app_longer in Hd|discriminate]|].
    split; [|discriminate].
    intros [Hqc _]. now apply measure_add_neq in Hqc.
  - eexists _, _. split; [reflexivity|]. cbn.
    split; [reflexivity|]. split; [reflexivity|].
    split; [intros _; repeat split|].
    split; [discriminate|].
    repeat split.
Qed.

Lemma _construct_circuit_frame (w w' : world) :
  _construct_circuit w = (Return tt, w') ->
  _mode (self w') = _mode (self w) /\ _ret (self w') = _ret (self w) /\
  _num_q (self w') = _num_q (self w) /\
  params w' = params w /\ stdout w' = stdout w /\ submitted w' = submitted w.
Proof.
  unfold _construct_circuit. intros Hc.
  apply bind_Return_inv in Hc as ([[[q a] s] qc] & w1 & Hf & Hc).
  apply compose_fragments_frame in Hf
    as (_ & Hq & Hmode & Hret & _ & _ & Hp & Ho & Hs).
  inv_M.
  destruct (negb _); inv_M; cbn; rewrite ?Hmode, ?Hret, ?Hq, ?Hp, ?Ho, ?Hs; easy.
Qed.

(** [_exact_simulation] never writes the result dictionary. *)
Lemma _exact_simulation_frame (w w' : world) :
  _exact_simulation w = (Return tt, w') -> _ret (self w') = _ret (self w).
Proof.
  unfold _exact_simulation. intros Hc. inv_M.
  unfold self_execute in Hstep0. inv_M.
  unfold print in Hc. inversion Hc; subst. reflexivity.
Qed.

(** In "exact_simulation" mode, what [run] returns is the result
    dictionary as it was before the call. *)
Lemma run_exact_simulation_ret (w w' : world) (r : dict retval) :
  py_eq_str (_mode (self w)) "exact_simulation" = true ->
  run w = (Return r, w') -> r = _ret (self w).
Proof.
  intros Hm. unfold run. intros Hr.
  apply bind_Return_inv in Hr as ([] & w1 & Hc & Hr).
  apply _construct_circuit_frame in Hc as (Hmode & Hret & _).
  inv_M. rewrite Hmode in Hstep0.
  destruct (_mode (self w)) as [| | |m| |] eqn:Em; try discriminate Hm.
  cbn in Hm. apply String.eqb_eq in Hm as ->. cbn in Hstep0.
  destruct x1. apply _exact_simulation_frame in Hstep0. congruence.
Qed.

(** In "state_tomography" mode [run] raises nothing of its own: it
    returns the result dictionary as soon as the circuit is built. *)
Lemma run_state_tomography_returns (w w1 : world) :
  py_eq_str (_mode (self w)) "state_tomography" = true ->
  _construct_circuit w = (Return tt, w1) ->
  run w = (Return (_ret (self w)), w1).
Proof.
  intros Hm Hc. unfold run. rewrite (bind_run _ _ _ _ _ Hc).
  apply _construct_circuit_frame in Hc as (Hmode & Hret & _).
  unfold get, mbind, M_bind. rewrite Hmode.
  destruct (_mode (self w)) as [| | |m| |]; try discriminate Hm.
  cbn in Hm. apply String.eqb_eq in Hm as ->. cbn.
  rewrite Hret. reflexivity.
Qed.

(** C9 (amended). In "circuit" mode, once the circuit is built, [run]
    returns the result dictionary extended with the circuit under "circuit"
    and, under "regs", the handles stored under "io_register",
    "eigenvalue_register", "ancilla_register" and "self._success_bit";
    nothing is handed to the backend and nothing is printed. *)
Theorem C9_circuit_mode_result (w w1 : world) :
  py_eq_str (_mode (self w)) "circuit" = true ->
  _construct_circuit w = (Return tt, w1) ->
  let handles : dict (option register) :=
    <["self._success_bit" := _success_bit (self w1)]>
      (<["ancilla_register" := _ancilla_register (self w1)]>
         (<["eigenvalue_register" := _eigenvalue_register (self w1)]>
            (<["io_register" := _io_register (self w1)]> ∅))) in
  let r := <["regs" := RRegs handles]>
             (<["circuit" := RCircuit (_circuit (self w1))]> (_ret (self w))) in
  run w = (Return r, World (set_ret r (self w1)) (params w) (stdout w) (submitted w)).
Proof.
  intros Hm Hc. unfold run. rewrite (bind_run _ _ _ _ _ Hc).
  apply _construct_circuit_frame in Hc as (Hmode & Hret & _ & Hp & Ho & Hs).
  unfold get, modify, mbind, M_bind. rewrite Hmode.
  destruct (_mode (self w)) as [| | |m| |]; try discriminate Hm.
  cbn in Hm. apply String.eqb_eq in Hm as ->.
  cbn. rewrite Hret, Hp, Ho, Hs. reflexivity.
Qed.

End Modes.

(** ** Configuration through [init_params] *)

Section Configuration.
Context `{Components}.

Lemma raised_AlgorithmError (msg : string) :
  raised "AlgorithmError" (AlgorithmError msg) = NameError "AlgorithmError".
Proof. reflexivity. Qed.

Lemma raised_NotImplementedError :
  raised "NotImplementedError" NotImplementedError = NotImplementedError.
Proof. reflexivity. Qed.

Lemma bind_mret {A B} (a : A) (f : A -> M B) (w : world) :
  (mret a ≫= f) w = f a w.
Proof. reflexivity. Qed.

Lemma run_section_or_empty (key : string) (w : world) :
  section_or_empty key w = (Return (default ∅ (params w !! key)), w).
Proof. reflexivity. Qed.

Lemma run_get {A} (f : HHL -> A) (w : world) :
  get f w = (Return (f (self w)), w).
Proof. reflexivity. Qed.

(** A matrix that is present passes the first test. *)
Ltac skip_None_test matrix Hm :=
  destruct matrix as [?|[]]; try contradiction; rewrite bind_mret.

(** C7. With the mode "exact_simulation" and a backend other than
    "local_statevector_simulator", [init_params] stops at the guard, before
    any component is created and with the object untouched; the exception
    that reaches the caller is the [NameError] for the unbound name
    [AlgorithmError]. *)
Theorem C7_exact_simulation_guard_raises_NameError
    (w : world) (matrix : matrix_arg) :
  matrix <> Obj PNone ->
  py_eq_str (requested_mode w) "exact_simulation" = true ->
  py_eq_str (_backend (self w)) "local_statevector_simulator" = false ->
  init_params matrix w = (Raise (NameError "AlgorithmError"), w).
Proof.
  intros Hm Hmode Hb. unfold init_params, requested_mode in *.
  skip_None_test matrix Hm.
  all: rewrite (bind_run _ _ _ _ _ (run_section_or_empty _ w)), Hmode.
  all: apply bind_raise.
  all: rewrite (bind_run _ _ _ _ _ (run_get _ w)), Hb; reflexivity.
Qed.

(** With the mode "state_tomography", [init_params] raises
    [NotImplementedError] before any component is created. *)
Lemma init_params_state_tomography (w : world) (matrix : matrix_arg) :
  matrix <> Obj PNone ->
  py_eq_str (requested_mode w) "state_tomography" = true ->
  init_params matrix w = (Raise NotImplementedError, w).
Proof.
  intros Hm Hmode. unfold init_params, requested_mode in *.
  skip_None_test matrix Hm.
  all: rewrite (bind_run _ _ _ _ _ (run_section_or_empty _ w)).
  all: apply bind_raise.
  all: destruct (dict_get _ PROP_MODE) as [| | |m| |]; try discriminate Hmode.
  all: cbn in Hmode; apply String.eqb_eq in Hmode as ->; reflexivity.
Qed.


(** *** The assertion on the length of the state vector *)

Lemma na_bind {A B} (m : M A) (f : A -> M B) :
  never_asserts m -> (forall a, never_asserts (f a)) -> never_asserts (m ≫= f).
Proof.
  intros Hm Hf w msg. unfold mbind, M_bind.
  specialize (Hm w msg). destruct (m w) as [[a|e] w1]; cbn in *.
  - apply Hf.
  - intros Heq. apply Hm. inversion Heq. reflexivity.
Qed.

Lemma na_mret {A} (a : A) : never_asserts (mret a : M A).
Proof. intros w msg. discriminate. Qed.

Lemma na_throw {A} (e : exn) :
  (forall msg, e <> AssertionError msg) -> never_asserts (throw e : M A).
Proof. intros He w msg. cbn. intros Heq. inversion Heq. now apply (He msg). Qed.

Lemma na_call {A} (r : string + A) : never_asserts (call r).
Proof. destruct r; [apply na_throw; discriminate|apply na_mret]. Qed.

Lemma na_getitem (d : dict pyval) k : never_asserts (getitem d k).
Proof.
  unfold getitem. destruct (d !! k); [apply na_mret|apply na_throw; discriminate].
Qed.

Lemma na_py_len (v : pyval) : never_asserts (py_len v).
Proof. destruct v; first [apply na_mret|apply na_throw; discriminate]. Qed.

Lemma na_shape0 (a : ndarray) : never_asserts (shape0 a).
Proof.
  unfold shape0. destruct (shape a); [apply na_throw; discriminate|apply na_mret].
Qed.

Lemma na_list_concat (v : pyval) tail : never_asserts (list_concat v tail).
Proof. destruct v; first [apply na_mret|apply na_throw; discriminate]. Qed.

Lemma na_py_iter (v : pyval) : never_asserts (py_iter v).
Proof. destruct v; first [apply na_mret|apply na_throw; discriminate]. Qed.

Lemma na_to_amplitude (x : pyval) : never_asserts (to_amplitude x).
Proof.
  destruct x as [| | | |[|re [|im l]]|]; cbn;
    try first [apply na_mret|apply na_throw; discriminate].
  destruct (as_number re), (as_number im);
    first [apply na_mret|apply na_throw; discriminate].
Qed.

Lemma na_map_M {A B} (f : A -> M B) (l : list A) :
  (forall a, never_asserts (f a)) -> never_asserts (map_M f l).
Proof.
  intros Hf. induction l as [|x l IH]; cbn; [apply na_mret|].
  apply na_bind; [apply Hf|intros y].
  apply na_bind; [apply IH|intros ys]. apply na_mret.
Qed.

(** The test of the [assert] statement is a non-empty tuple: it is true
    whatever the comparison inside it gives. *)
Lemma na_assert_tuple (b : bool) (text msg : string) :
  py_assert (PTuple [PBool b; PStr text]) msg = mret tt.
Proof. reflexivity. Qed.

Lemma init_params_never_asserts (matrix : matrix_arg) :
  never_asserts (init_params matrix).
Proof.
  unfold init_params.
  repeat first
    [ rewrite na_assert_tuple
    | apply na_mret
    | apply na_call
    | apply na_getitem
    | apply na_py_len
    | apply na_shape0
    | apply na_list_concat
    | apply na_py_iter
    | apply na_map_M; intros ?; apply na_to_amplitude
    | apply na_throw; intros ?; vm_compute; discriminate
    | apply na_bind; [|intros ?]
    | match goal with
      | |- never_asserts (if ?c then _ else _) => destruct c
      | |- never_asserts (match ?x with _ => _ end) => destruct x
      | |- never_asserts (let '(_, _) := ?x in _) => destruct x
      end
    | intros ? ?; discriminate ].
Qed.

(** *** The padding of a CUSTOM state vector *)

Lemma nonempty_lookup {V} (d : dict V) k v : d !! k = Some v -> d <> ∅.
Proof. intros Hk ->. now rewrite lookup_empty in Hk. Qed.

Lemma section_present (ps : dict (dict pyval)) key k v :
  default ∅ (ps !! key) !! k = Some v ->
  ps !! key = Some (default ∅ (ps !! key)).
Proof.
  destruct (ps !! key) as [d|]; cbn; [easy|].
  rewrite lookup_empty. discriminate.
Qed.

(** An assignment into a section that holds an entry is seen by the
    caller. *)
Lemma setitem_present key d k v k0 v0 w :
  params w !! key = Some d -> d !! k0 = Some v0 ->
  setitem key d k v w
  = (Return (<[k := v]> d),
     World (self w) (<[key := <[k := v]> d]> (params w)) (stdout w) (submitted w)).
Proof.
  intros Hp Hk. unfold setitem. rewrite Hp.
  rewrite bool_decide_eq_false_2 by (eapply nonempty_lookup; eauto).
  reflexivity.
Qed.

(** An assignment under the key [k] keeps what the caller sees under any
    other key [k0] of any section. *)
Lemma setitem_keeps key k v key0 d0 k0 v0 w d' w' :
  setitem key (default ∅ (params w !! key)) k v w = (Return d', w') ->
  k0 <> k ->
  params w !! key0 = Some d0 -> d0 !! k0 = Some v0 ->
  self w' = self w /\
  exists d1, params w' !! key0 = Some d1 /\ d1 !! k0 = Some v0.
Proof.
  unfold setitem. intros Hs Hne Hp Hk.
  destruct (params w !! key) as [old|] eqn:Hold; cbn in Hs.
  - destruct (bool_decide (old = ∅)); inversion Hs; subst; cbn;
      (split; [reflexivity|]); eauto.
    destruct (decide (key = key0)) as [->|Hkey].
    + rewrite lookup_insert_eq. eexists. split; [reflexivity|].
      rewrite lookup_insert_ne by congruence. congruence.
    + rewrite lookup_insert_ne by exact Hkey. eauto.
  - inversion Hs; subst; cbn. eauto.
Qed.

Lemma to_amplitude_frame x w y w' :
  to_amplitude x w = (Return y, w') -> w' = w.
Proof.
  destruct x as [| | | |[|re [|im l]]|]; cbn; intros Hx;
    try (inversion Hx; subst; reflexivity).
  destruct (as_number re), (as_number im); inversion Hx; subst; reflexivity.
Qed.

Lemma map_to_amplitude_frame l w ys w' :
  map_M to_amplitude l w = (Return ys, w') -> w' = w.
Proof.
  revert w ys w'. induction l as [|x l IH]; cbn; intros w ys w' Hm.
  - now inversion Hm.
  - inv_M. apply to_amplitude_frame in Hstep as ->.
    apply IH in Hstep0 as ->. reflexivity.
Qed.

Lemma mode_test_frame (mode : pyval) w o w' :
  (if py_eq_str mode "exact_simulation" then
     backend ← get _backend;
     if negb (py_eq_str backend "local_statevector_simulator") then
       throw (raised "AlgorithmError"
                (AlgorithmError "statevector simulator required for exact_simulation"))
     else mret tt
   else if py_eq_str mode "state_tomography" then
     throw (raised "NotImplementedError" NotImplementedError)
   else mret tt) w = (o, w') -> w' = w.
Proof.
  destruct (py_eq_str mode "exact_simulation").
  - unfold mbind, M_bind, get. destruct (negb _); intros Ho; now inversion Ho.
  - destruct (py_eq_str mode "state_tomography"); intros Ho; now inversion Ho.
Qed.

Lemma shape0_frame a w n w' : shape0 a w = (Return n, w') -> w' = w.
Proof.
  unfold shape0. destruct (shape a); intros Hs; now inversion Hs.
Qed.

Lemma list_repeat_nat (n len : nat) (x : pyval) :
  list_repeat (2 ^ Z.of_nat n - Z.of_nat len) x = replicate (2 ^ n - len) x.
Proof.
  unfold list_repeat. f_equal.
  replace (2 ^ Z.of_nat n)%Z with (Z.of_nat (2 ^ n)).
  - lia.
  - rewrite Nat2Z.inj_pow. reflexivity.
Qed.

(** C10. [init_params] never raises [AssertionError]. For a CUSTOM
    initial state whose "state_vector" is a list [l] of any length,
    whenever [init_params] returns, the vector left in the caller's
    parameters and handed to the initial-state component is [l] followed
    by [2^num_q - len(l)] zeros, that is [l] itself when [l] has [2^num_q]
    entries or more. *)
Theorem C10_custom_state_vector_unchecked_and_padded
    (w w' : world) (matrix : matrix_arg) (l : list pyval) :
  let isp := default ∅ (params w !! SECTION_KEY_INITIAL_STATE) in
  isp !! "name" = Some (PStr "CUSTOM") ->
  isp !! "state_vector" = Some (PList l) ->
  init_params matrix w = (Return tt, w') ->
  let num_q := _num_q (self w') in
  let padded := l ++ replicate (2 ^ num_q - length l) (PInt 0) in
  (forall matrix0 w0 msg, fst (init_params matrix0 w0) <> Raise (AssertionError msg)) /\
  ((2 ^ num_q <= length l)%nat -> padded = l) /\
  (exists isp', params w' !! SECTION_KEY_INITIAL_STATE = Some isp' /\
                isp' !! "state_vector" = Some (PList padded)) /\
  (exists i i',
      get_initial_state_instance (PStr "CUSTOM") = inr i /\
      init_state_init_params i
        (<["num_qubits" := PInt (Z.of_nat num_q)]>
           (<["state_vector" := PList padded]> isp)) = inr i' /\
      _init_state (self w') = Some i').
Proof.
  intros isp Hname Hsv Hi num_q padded.
  split; [intros matrix0 w0 msg; apply init_params_never_asserts|].
  split.
  { intros Hlen. subst padded.
    replace (2 ^ num_q - length l)%nat with 0%nat by lia.
    apply app_nil_r. }
  subst num_q padded. unfold init_params in Hi. inv_M.
  assert (x0 = w) as ->.
  { destruct matrix as [?|[]]; try discriminate Hstep; now inversion Hstep. }
  apply mode_test_frame in Hstep1 as ->.
  pose proof (section_present _ _ _ _ Hname) as Hisp. fold isp in Hisp.
  match goal with
  | Hx : (if ?c then _ else _) w = _ |- _ =>
      fold isp in Hx; unfold dict_get in Hx; rewrite Hname in Hx;
      change (py_eq_str _ "CUSTOM") with true in Hx; cbv iota in Hx
  end.
  inv_M.
  repeat match goal with
         | Hx : isp !! "state_vector" = Some ?v |- _ =>
             lazymatch v with
             | PList l => fail
             | _ => rewrite Hsv in Hx; inversion Hx; subst; clear Hx
             end
         end.
  repeat match goal with
         | Hx : shape0 _ _ = (Return _, _) |- _ =>
             apply shape0_frame in Hx; subst
         | Hx : py_len (PList _) _ = (Return _, _) |- _ =>
             cbn in Hx; inv_M
         | Hx : py_assert _ _ _ = (Return _, _) |- _ =>
             cbn in Hx; inv_M
         | Hx : list_concat (PList _) _ _ = (Return _, _) |- _ =>
             cbn in Hx; inv_M
         end.
  match goal with Hx : (_, _) = (_, _) |- _ => inversion Hx; subst; clear Hx end.
  repeat match goal with
         | Hx : py_iter (PList _) _ = (Return _, _) |- _ => cbn in Hx; inv_M
         end.
  rewrite list_repeat_nat in *.
  set (padded := l ++ replicate (2 ^ n - length l) (PInt 0)) in *.
  match goal with
  | Hx : setitem _ isp "state_vector" _ w = _ |- _ =>
      rewrite (setitem_present _ _ _ _ _ _ _ Hisp Hname) in Hx;
      inversion Hx; subst; clear Hx
  end.
  match goal with
  | Hx : setitem _ _ "num_qubits" _ _ = _ |- _ =>
      rewrite (setitem_present _ _ _ _ "name" (PStr "CUSTOM")) in Hx;
      [ inversion Hx; subst; clear Hx
      | apply lookup_insert_eq
      | rewrite lookup_insert_ne by discriminate; exact Hname ]
  end.
  match goal with
  | Hx : _ !! "name" = Some ?v, Hy : get_initial_state_instance ?v = _ |- _ =>
      rewrite !lookup_insert_ne in Hx by discriminate;
      rewrite Hname in Hx; inversion Hx; subst; clear Hx
  end.
  match goal with
  | Hx : map_M to_amplitude _ _ = _ |- _ =>
      apply map_to_amplitude_frame in Hx; subst
  end.
  match goal with
  | Hx : setitem _ _ "negative_evals" _ _ = _ |- _ =>
      eapply (setitem_keeps _ _ _ SECTION_KEY_INITIAL_STATE _ "state_vector") in Hx
        as (Hself & d1 & Hd1 & Hd1sv);
      [ | discriminate | cbn; apply lookup_insert_eq
        | rewrite lookup_insert_ne by discriminate; apply lookup_insert_eq ]
  end.
  unfold init_args in Hi. inv_M. cbn.
  split; [eauto|].
  eexists _, _. repeat split; eassumption.
Qed.

End Configuration.

(** ** What [init_params] checks of the matrix *)

Section Acceptance.
Context `{Components}.








Lemma custom_name (w : world) :
  custom_state w = true ->
  default ∅ (params w !! SECTION_KEY_INITIAL_STATE) !! "name" = Some (PStr "CUSTOM").
Proof.
  unfold custom_state, dict_get.
  destruct (_ !! "name") as [[| | |s| |]|]; cbn; try discriminate.
  intros Hs. apply String.eqb_eq in Hs as ->. reflexivity.
Qed.


End Acceptance.

Section Matrix.
Context `{Components}.









End Matrix.

(** ** The exact-state extractor *)

Lemma spec_probability_tiny6 : spec_success_probability sv_tiny6 3 = 1e-9 ^ 2.
Proof.
  unfold spec_success_probability, sv_tiny6, branch_mass_from.
  rewrite (bool_decide_eq_true_2 (2 ^ (3 - 1) <= 6)%nat) by (cbn; lia).
  rewrite (bool_decide_eq_true_2 (2 ^ (3 - 1) <= 7)%nat) by (cbn; lia).
  repeat rewrite (bool_decide_eq_false_2 (2 ^ (3 - 1) <= _)%nat) by (cbn; lia).
  rewrite Cabs_C0, Cabs_real by lra.
  rewrite (bool_decide_eq_true_2 (0 <= 1e-10)) by lra.
  rewrite (bool_decide_eq_false_2 (1e-9 <= 1e-10)) by lra.
  rewrite !andb_false_r. cbn [andb negb]. lra.
Qed.

(** C3. On the state vector with amplitude 1 at index 0 and amplitude
    [1e-9] at index 6, the probability the code computes is 0, whereas the
    sum of the squared magnitudes over the success branch after suppressing
    the amplitudes of magnitude at most [1e-10] is [1e-18]: the amplitude
    at index 6 is above [1e-10] and is dropped all the same, because
    [np.isclose(sv, 0, 1e-10)] compares with the default [atol = 1e-8]. *)
Theorem C3_threshold_is_atol_not_epsilon :
  l_p (post_process sv_tiny6 3 2) = 0 /\
  spec_success_probability sv_tiny6 3 = 1e-9 ^ 2 /\
  l_p (post_process sv_tiny6 3 2) <> spec_success_probability sv_tiny6 3.
Proof.
  rewrite post_process_tiny6, spec_probability_tiny6. cbn [l_p].
  repeat split; lra.
Qed.

(** ** Renormalisation in float64 *)

Lemma post_process_fl_exact (sv : list complex) (num num_q : nat) :
  @post_process_fl exact sv num num_q = post_process sv num num_q.
Proof. reflexivity. Qed.

Lemma Rabs_le_bounds (x y : R) : Rabs x <= y -> - y <= x <= y.
Proof. unfold Rabs. destruct (Rcase_abs x); lra. Qed.

Lemma close_sq (eps x y : R) :
  0 <= eps <= 1 -> close eps y x ->
  (1 - eps) ^ 2 * x ^ 2 <= y ^ 2 <= (1 + eps) ^ 2 * x ^ 2.
Proof.
  unfold close. intros Heps Hc.
  pose proof (Rabs_pos x) as Hx0. pose proof (Rabs_pos y) as Hy0.
  pose proof (Rabs_triang_inv y x) as H1.
  pose proof (Rabs_triang_inv x y) as H2.
  rewrite (Rabs_minus_sym x y) in H2.
  assert (Hlo : (1 - eps) * Rabs x <= Rabs y) by lra.
  assert (Hhi : Rabs y <= (1 + eps) * Rabs x) by lra.
  rewrite <- (pow2_abs x), <- (pow2_abs y), <- !Rpow_mult_distr.
  split; apply pow_incr; split; try assumption.
  apply Rmult_le_pos; lra.
Qed.

Section Renormalisation.
Context `{Float64}.

(** The squared magnitudes of the quotients, against those of the exact
    quotients by the same divisor. *)
Lemma sum_abs_sq_quotients (eps r : R) (a b : list complex) :
  0 <= eps <= 1 ->
  Forall (fun v =>
            close eps (real (fl_div v r)) (real v / r) /\
            close eps (imag (fl_div v r)) (imag v / r)) a ->
  (1 - eps) ^ 2 * np.sum_abs_sq (np.divide a r)
  <= np.sum_abs_sq (map (fun v => fl_div v r) a)
  <= (1 + eps) ^ 2 * np.sum_abs_sq (np.divide a r).
Proof.
  intros Heps. induction 1 as [|v a [Hre Him] _ IH].
  - unfold np.sum_abs_sq. cbn. lra.
  - unfold np.divide in *. rewrite !map_cons, !sum_abs_sq_cons, !Cabs_sq.
    apply (close_sq _ _ _ Heps) in Hre, Him. cbn [real imag Cdiv_real].
    nra.
Qed.

(** With a norm and quotients accurate to [1e-10], the renormalised
    amplitudes have unit mass within [1e-9]. *)
Lemma renormalised_close (eps : R) (a : list complex) :
  0 <= eps <= 1e-10 -> 0 < np.sum_abs_sq a -> accurate_on eps a ->
  Rabs (np.sum_abs_sq (map (fun v => fl_div v (fl_norm a)) a) - 1) <= 1e-9.
Proof.
  intros Heps Hpos [Hnorm Hq].
  assert (Heps1 : 0 <= eps <= 1) by lra.
  pose proof (sum_abs_sq_quotients eps (fl_norm a) a a Heps1 Hq) as Hsum.
  pose proof (linalg_norm_sq a) as Hsq.
  assert (Hn0 : 0 < np.linalg_norm a).
  { unfold np.linalg_norm. apply sqrt_lt_R0. rewrite norm_sq. exact Hpos. }
  unfold close in Hnorm. rewrite (Rabs_pos_eq (np.linalg_norm a)) in Hnorm by lra.
  apply Rabs_le_bounds in Hnorm.
  set (n := np.linalg_norm a) in *. set (r := fl_norm a) in *.
  assert (Hen : 0 <= eps * n) by (apply Rmult_le_pos; lra).
  assert (Hen' : eps * n <= 1e-10 * n) by (apply Rmult_le_compat_r; lra).
  assert (Hr : 0 < r) by lra.
  rewrite sum_abs_sq_divide in Hsum by lra.
  rewrite <- Hsq in Hsum.
  set (X := np.sum_abs_sq (map _ a)) in *. set (q := n ^ 2 / r ^ 2) in *.
  assert (Hr2 : 0 < r ^ 2) by (apply pow_lt; exact Hr).
  assert (Hqr : q * r ^ 2 = n ^ 2) by (unfold q; field; lra).
  assert (Hlo : (1 - eps) ^ 2 * n ^ 2 <= r ^ 2).
  { rewrite <- Rpow_mult_distr. apply pow_incr. split; [|lra].
    apply Rmult_le_pos; lra. }
  assert (Hhi : r ^ 2 <= (1 + eps) ^ 2 * n ^ 2).
  { rewrite <- Rpow_mult_distr. apply pow_incr. lra. }
  assert (Hq1 : 1 <= (1 + eps) ^ 2 * q).
  { apply Rmult_le_reg_r with (r ^ 2); [exact Hr2|].
    rewrite Rmult_assoc, Hqr. lra. }
  assert (Hq2 : (1 - eps) ^ 2 * q <= 1).
  { apply Rmult_le_reg_r with (r ^ 2); [exact Hr2|].
    rewrite Rmult_assoc, Hqr. lra. }
  assert (Hp1 : 0 < (1 + eps) ^ 2) by (apply pow_lt; lra).
  assert (Hp2 : 0 < (1 - eps) ^ 2) by (apply pow_lt; lra).
  assert (He1 : (1 - 1e-9) * (1 + eps) ^ 2 <= (1 - eps) ^ 2) by nra.
  assert (He2 : (1 + eps) ^ 2 <= (1 + 1e-9) * (1 - eps) ^ 2) by nra.
  apply Rabs_le. split.
  - assert (Hx : (1 - 1e-9) * (1 + eps) ^ 2 <= X * (1 + eps) ^ 2).
    { apply Rle_trans with ((1 - eps) ^ 2); [exact He1|].
      apply Rle_trans with ((1 - eps) ^ 2 * ((1 + eps) ^ 2 * q)).
      - rewrite <- (Rmult_1_r ((1 - eps) ^ 2)) at 1.
        apply Rmult_le_compat_l; [apply Rlt_le; exact Hp2|exact Hq1].
      - replace ((1 - eps) ^ 2 * ((1 + eps) ^ 2 * q))
          with ((1 - eps) ^ 2 * q * (1 + eps) ^ 2) by ring.
        apply Rmult_le_compat_r; [apply Rlt_le; exact Hp1|exact (proj1 Hsum)]. }
    apply Rmult_le_reg_r in Hx; [lra|exact Hp1].
  - assert (Hx : X * (1 - eps) ^ 2 <= (1 + 1e-9) * (1 - eps) ^ 2).
    { apply Rle_trans with ((1 + eps) ^ 2); [|exact He2].
      apply Rle_trans with ((1 + eps) ^ 2 * ((1 - eps) ^ 2 * q)).
      - replace ((1 + eps) ^ 2 * ((1 - eps) ^ 2 * q))
          with ((1 + eps) ^ 2 * q * (1 - eps) ^ 2) by ring.
        apply Rmult_le_compat_r; [apply Rlt_le; exact Hp2|exact (proj2 Hsum)].
      - rewrite <- (Rmult_1_r ((1 + eps) ^ 2)) at 2.
        apply Rmult_le_compat_l; [apply Rlt_le; exact Hp1|exact Hq2]. }
    apply Rmult_le_reg_r in Hx; [lra|exact Hp2].
Qed.

End Renormalisation.

(** ** The success branch and the mapping *)

(** Every amplitude of the success branch passed the threshold test. *)
Lemma branch_large_from (num : nat) (pre suf : list complex) :
  let idxs := np.where_from (length pre) (noise_mask suf) in
  Forall (fun v => 1e-8 < Cabs v)
         (np.compress (map (fun i => ge_pow2 i num) idxs) (np.take (pre ++ suf) idxs)).
Proof.
  revert pre. induction suf as [|v suf IH]; intros pre idxs.
  - constructor.
  - subst idxs. rewrite noise_mask_cons. simpl.
    specialize (IH (pre ++ [v])). simpl in IH.
    rewrite <- app_assoc, length_app in IH. simpl in IH.
    rewrite Nat.add_1_r in IH.
    destruct (bool_decide (Cabs v <= 1e-8)) eqn:Ev; simpl.
    + exact IH.
    + rewrite list_lookup_middle by reflexivity.
      apply bool_decide_eq_false in Ev.
      destruct (ge_pow2 (length pre) num); [constructor; [lra|exact IH]|exact IH].
Qed.

Lemma success_branch_large (sv : list complex) (num : nat) :
  Forall (fun v => 1e-8 < Cabs v) (success_branch sv num).
Proof. exact (branch_large_from num [] sv). Qed.

Lemma success_branch_mass (sv : list complex) (num : nat) :
  success_branch sv num <> [] -> 0 < np.sum_abs_sq (success_branch sv num).
Proof.
  pose proof (success_branch_large sv num) as Hall.
  destruct (success_branch sv num) as [|v a]; [contradiction|]. intros _.
  apply Forall_cons_1 in Hall as [Hv _].
  rewrite sum_abs_sq_cons. pose proof (sum_abs_sq_nonneg a).
  assert (0 < Cabs v ^ 2) by nra. lra.
Qed.

Lemma compress_length {A B} (mask : list bool) (a : list A) (b : list B) :
  length a = length b -> length (np.compress mask a) = length (np.compress mask b).
Proof.
  revert a b. induction mask as [|m mask IH]; intros [|x a] [|y b] Hl;
    try discriminate Hl; try reflexivity.
  cbn in Hl. injection Hl as Hl. destruct m; cbn; [f_equal|]; now apply IH.
Qed.

(** An entry of the mapping comes from one of the pairs it was built
    from. *)
Lemma build_dict_lookup (num num_q : nat) (idxs : list nat) (vals : list complex)
    (k : string) (x : R) :
  build_dict num num_q idxs vals !! k = Some x ->
  exists i v, In (i, v) (zip idxs vals) /\ k = key_of num num_q i /\ x = real v.
Proof.
  unfold build_dict. generalize (zip idxs vals). intros l.
  assert (Hgen : forall d0 : gmap string R,
    foldl (fun d iv => <[key_of num num_q (fst iv) := real (snd iv)]> d) d0 l !! k = Some x ->
    d0 !! k = Some x \/
    exists i v, In (i, v) l /\ k = key_of num num_q i /\ x = real v).
  { induction l as [|[i v] l IH]; intros d0; simpl; [tauto|].
    intros Hl. apply IH in Hl as [Hl|(j & u & Hin & Hk & Hx)].
    - destruct (decide (key_of num num_q i = k)) as [Heq|Hne].
      + subst k. rewrite lookup_insert_eq in Hl. inversion Hl. right. eauto 6.
      + rewrite lookup_insert_ne in Hl by exact Hne. tauto.
    - right. eauto 6. }
  intros Hl. apply Hgen in Hl as [Hl|Hl]; [|exact Hl].
  rewrite lookup_empty in Hl. discriminate.
Qed.

(** A pair is found in the mapping unless a later pair has its key. *)
Lemma build_dict_last (num num_q : nat) (idxs : list nat) (vals : list complex)
    (before after : list (nat * complex)) (i : nat) (v : complex) :
  zip idxs vals = before ++ (i, v) :: after ->
  (forall j u, In (j, u) after -> key_of num num_q j <> key_of num num_q i) ->
  build_dict num num_q idxs vals !! key_of num num_q i = Some (real v).
Proof.
  intros Hz Hafter. unfold build_dict. rewrite Hz, foldl_app. cbn [foldl fst snd].
  fold (key_of num num_q i).
  set (d0 := <[key_of num num_q i := real v]> _).
  assert (H0 : d0 !! key_of num num_q i = Some (real v))
    by (subst d0; apply lookup_insert_eq).
  clearbody d0. clear Hz.
  revert d0 H0. induction after as [|[j u] after IH]; intros d0 H0; [exact H0|].
  cbn [foldl fst snd]. apply IH.
  - intros j' u' Hin. apply (Hafter j' u'). now right.
  - fold (key_of num num_q j). rewrite lookup_insert_ne; [exact H0|].
    apply (Hafter j u). now left.
Qed.

(** C5 (amended). Whenever the success branch keeps at least one
    amplitude, the extractor divides the amplitudes of the branch by their
    Euclidean norm, one quotient per surviving index. With a norm and
    quotients that are accurate to the relative error [1e-10], as they are
    in exact arithmetic, the squared magnitudes of the renormalised complex
    amplitudes sum to 1 within [1e-9]. The mapping holds real parts only:
    each of its entries is the real part of the renormalised amplitude of a
    surviving index, under the last [num_q] characters of the bit string
    of that index, and of the indices that share a key the last one is the
    one found in the mapping. *)
Theorem C5_renormalised_amplitudes_unit_mass `{Float64}
    (sv : list complex) (num num_q : nat) (eps : R) :
  let l := post_process_fl sv num num_q in
  let branch := success_branch sv num in
  branch <> [] -> 0 <= eps <= 1e-10 -> accurate_on eps branch ->
  l_vals l = map (fun v => fl_div v (fl_norm branch)) branch /\
  length (l_vals l) = length (l_idxs l) /\
  Rabs (np.sum_abs_sq (l_vals l) - 1) <= 1e-9 /\
  (forall k x, l_d l !! k = Some x ->
     exists i v, In (i, v) (zip (l_idxs l) (l_vals l)) /\
                 k = key_of num num_q i /\ x = real v) /\
  (forall before i v after,
     zip (l_idxs l) (l_vals l) = before ++ (i, v) :: after ->
     (forall j u, In (j, u) after -> key_of num num_q j <> key_of num num_q i) ->
     l_d l !! key_of num num_q i = Some (real v)).
Proof.
  intros l branch Hne Heps Hacc.
  split; [reflexivity|]. split.
  { subst l. unfold post_process_fl. cbn [l_vals l_idxs].
    rewrite length_map. apply compress_length, take_where_length. }
  split.
  { apply (renormalised_close eps); [exact Heps| |exact Hacc].
    now apply success_branch_mass. }
  split.
  - intros k x. apply build_dict_lookup.
  - intros before i v after. apply build_dict_last.
Qed.

Lemma rounding_accurate (a : list complex) : @accurate_on rounding 1e-12 a.
Proof.
  split.
  - unfold close. cbn [fl_norm rounding].
    set (n := np.linalg_norm a).
    assert (Hn : 0 <= n) by apply sqrt_pos.
    replace (n * (1 + 1e-12) - n) with (1e-12 * n) by ring.
    rewrite Rabs_mult, (Rabs_pos_eq n) by exact Hn.
    rewrite Rabs_pos_eq by lra. lra.
  - apply Forall_forall. intros v _. cbn [fl_div rounding Cdiv_real real imag].
    unfold close. split.
    + rewrite Rminus_diag, Rabs_R0. apply Rmult_le_pos; [lra|apply Rabs_pos].
    + rewrite Rminus_diag, Rabs_R0. apply Rmult_le_pos; [lra|apply Rabs_pos].
Qed.

Lemma success_branch_split : success_branch sv_split 3 = [Cx 0.48 0; Cx 0 0.64].
Proof.
  unfold success_branch, sv_split. repeat rewrite noise_mask_cons.
  rewrite keep_C0.
  rewrite (keep_large (Cx 0.6 0)) by (rewrite Cabs_real; lra).
  rewrite (keep_large (Cx 0.48 0)) by (rewrite Cabs_real; lra).
  rewrite (keep_large (Cx 0 0.64)) by (rewrite Cabs_imag; lra).
  reflexivity.
Qed.

Lemma C5_witness :
  success_branch sv_split 3 <> [] /\
  0 <= 1e-12 <= 1e-10 /\
  @accurate_on rounding 1e-12 (success_branch sv_split 3) /\
  l_vals (@post_process_fl rounding sv_split 3 2)
  = map (fun v => Cdiv_real v (np.linalg_norm (success_branch sv_split 3) * (1 + 1e-12)))
        (success_branch sv_split 3) /\
  Rabs (np.sum_abs_sq (l_vals (@post_process_fl rounding sv_split 3 2)) - 1) <= 1e-9.
Proof.
  assert (H1 : success_branch sv_split 3 <> [])
    by (rewrite success_branch_split; discriminate).
  assert (H2 : 0 <= 1e-12 <= 1e-10) by lra.
  pose proof (rounding_accurate (success_branch sv_split 3)) as H3.
  split; [exact H1|]. split; [exact H2|]. split; [exact H3|].
  destruct (C5_renormalised_amplitudes_unit_mass (H := rounding) sv_split 3 2 1e-12
              H1 H2 H3) as (Hvals & _ & Hsum & _).
  split; [exact Hvals|exact Hsum].
Defined.

(** C5, as stated, fails for the mapping itself: with the amplitude [i] at
    index 6 the success probability is 1, and the only value of the mapping
    is the real part 0. *)
Lemma C5_counterexample :
  0 < l_p (post_process sv_imag6 3 2) /\
  l_d (post_process sv_imag6 3 2) = {["10" := 0]} /\
  ~ Rabs (dict_sum_sq (l_d (post_process sv_imag6 3 2)) - 1) <= 1e-9.
Proof.
  rewrite post_process_imag6. cbn [l_p l_d].
  split; [lra|]. split; [reflexivity|].
  unfold dict_sum_sq. rewrite map_fold_singleton.
  replace (0 ^ 2 + 0 - 1) with (- (1)) by ring.
  rewrite Rabs_Ropp, Rabs_R1. lra.
Qed.

(** ** Runs with the stub components *)

(** C1. An object in "exact_simulation" mode whose backend answers with
    all the amplitude mass at index 6: [run] returns the empty result
    dictionary; the mapping {"0": 1.0} is only printed and the success
    probability 1.0 appears nowhere. *)
Theorem C1_exact_simulation_result_not_returned :
  let w := configured sv_at6 "exact_simulation" in
  fst (run_stub sv_at6 w) = Return ∅ /\
  stdout (snd (run_stub sv_at6 w)) = [ {["0" := 1]} ] /\
  l_p (post_process sv_at6 3 1) = 1.
Proof.
  cbv zeta. split; [reflexivity|]. split.
  - change (stdout (snd (run_stub sv_at6 (configured sv_at6 "exact_simulation"))))
      with [l_d (post_process sv_at6 3 1)].
    rewrite post_process_at6. reflexivity.
  - rewrite post_process_at6. reflexivity.
Qed.

(** C2. An object set to "state_tomography" through [init_args]: [run]
    builds the circuit and returns the (empty) result dictionary, raising
    nothing; the same mode requested through [init_params] raises
    [NotImplementedError]. *)
Theorem C2_state_tomography_run_returns_silently :
  fst (run_stub sv_at6 (configured sv_at6 "state_tomography")) = Return ∅ /\
  stdout (snd (run_stub sv_at6 (configured sv_at6 "state_tomography"))) = [] /\
  submitted (snd (run_stub sv_at6 (configured sv_at6 "state_tomography"))) = [] /\
  fst (init_params_stub sv_at6 (Obj matrix_id2) w_tomography) = Raise NotImplementedError.
Proof. repeat split; reflexivity. Qed.

(** C4. Three qubits, two of them input qubits. With all the amplitude
    mass at index 6 the extractor computes the mapping {"10": 1.0} and the
    success probability 1.0, and with all the mass at index 2 the empty
    mapping and the probability 0.0; but [_exact_simulation] returns
    nothing ([None]) and [run] returns the empty result dictionary on both
    inputs: the mapping is only printed and the probability is dropped. *)
Theorem C4_extractor_result_not_returned :
  (l_d (post_process sv_at6 3 2) = {["10" := 1]} /\
   l_p (post_process sv_at6 3 2) = 1 /\
   l_d (post_process sv_at2 3 2) = ∅ /\
   l_p (post_process sv_at2 3 2) = 0) /\
  (fst (@_exact_simulation (stub_inplace sv_at6) (constructed_inplace sv_at6))
   = Return tt /\
   stdout (snd (@_exact_simulation (stub_inplace sv_at6) (constructed_inplace sv_at6)))
   = [ {["10" := 1]} ] /\
   fst (@run (stub_inplace sv_at6) (configured_inplace sv_at6)) = Return ∅ /\
   _ret (self (snd (@run (stub_inplace sv_at6) (configured_inplace sv_at6)))) = ∅) /\
  (fst (@_exact_simulation (stub_inplace sv_at2) (constructed_inplace sv_at2))
   = Return tt /\
   stdout (snd (@_exact_simulation (stub_inplace sv_at2) (constructed_inplace sv_at2)))
   = [ ∅ ] /\
   fst (@run (stub_inplace sv_at2) (configured_inplace sv_at2)) = Return ∅ /\
   _ret (self (snd (@run (stub_inplace sv_at2) (configured_inplace sv_at2)))) = ∅).
Proof.
  split; [rewrite post_process_at6, post_process_at2; repeat split; reflexivity|].
  split.
  - split; [reflexivity|]. split; [|split; reflexivity].
    change (stdout (snd (@_exact_simulation (stub_inplace sv_at6)
                           (constructed_inplace sv_at6))))
      with [l_d (post_process sv_at6 3 2)].
    rewrite post_process_at6. reflexivity.
  - split; [reflexivity|]. split; [|split; reflexivity].
    change (stdout (snd (@_exact_simulation (stub_inplace sv_at2)
                           (constructed_inplace sv_at2))))
      with [l_d (post_process sv_at2 3 2)].
    rewrite post_process_at2. reflexivity.
Qed.

Lemma compose_fragments_stub (mode : string) :
  @compose_fragments (stub sv_at6) (configured sv_at6 mode)
  = (Return (reg_io, Some reg_eig, Some reg_anc, stub_base), configured sv_at6 mode).
Proof. reflexivity. Qed.

Lemma C6_witness :
  exists w' qc,
    @_construct_circuit (stub sv_at6) (configured sv_at6 "circuit") = (Return tt, w') /\
    _circuit (self w') = Some qc /\
    _ancilla_register (self w') = Some reg_anc /\
    regs qc = [reg_io; reg_eig; reg_anc; ClassicalRegister 1 None] /\
    data qc = data stub_base ++ [Measure (Some reg_anc) (ClassicalRegister 1 None)] /\
    _success_bit (self w') = Some (ClassicalRegister 1 None).
Proof.
  destruct (C6_measurement_iff_not_exact_simulation
              (H := stub sv_at6) (configured sv_at6 "circuit") _ _ _ _ _
              (compose_fragments_stub "circuit"))
    as (w' & qc & Hrun & Hqc & Hanc & Hmeasured & _).
  exists w', qc.
  destruct (Hmeasured eq_refl) as (Hregs & Hdata & Hbit).
  repeat split; assumption.
Defined.

Lemma C7_witness :
  Obj matrix_id2 <> Obj PNone /\
  py_eq_str (requested_mode w_qasm_exact) "exact_simulation" = true /\
  py_eq_str (_backend (self w_qasm_exact)) "local_statevector_simulator" = false /\
  init_params_stub sv_at6 (Obj matrix_id2) w_qasm_exact
  = (Raise (NameError "AlgorithmError"), w_qasm_exact).
Proof.
  assert (H1 : Obj matrix_id2 <> Obj PNone) by discriminate.
  assert (H2 : py_eq_str (requested_mode w_qasm_exact) "exact_simulation" = true)
    by reflexivity.
  assert (H3 : py_eq_str (_backend (self w_qasm_exact)) "local_statevector_simulator"
               = false) by reflexivity.
  split; [exact H1|]. split; [exact H2|]. split; [exact H3|].
  exact (C7_exact_simulation_guard_raises_NameError
           (H := stub sv_at6) w_qasm_exact (Obj matrix_id2) H1 H2 H3).
Defined.


Lemma init_params_1x3_returns :
  init_params_stub sv_at6 (Obj matrix_1x3) w_default
  = (Return tt, snd (init_params_stub sv_at6 (Obj matrix_1x3) w_default)).
Proof. reflexivity. Qed.





(** C9, as stated, fails: the dictionary returned in "circuit" mode has the
    keys "circuit" and "regs" only, and the handles are the four under
    "regs"; the mode is not part of it. *)
Lemma C9_counterexample :
  fst (run_stub sv_at6 (configured sv_at6 "circuit")) = Return stub_result /\
  stub_result !! "mode" = None /\
  stub_handles !! "mode" = None /\
  dom stub_result = {["circuit"; "regs"]} /\
  dom stub_handles
  = {["io_register"; "eigenvalue_register"; "ancilla_register"; "self._success_bit"]}.
Proof. repeat split; reflexivity. Qed.

Lemma _construct_circuit_stub_circuit :
  @_construct_circuit (stub sv_at6) (configured sv_at6 "circuit")
  = (Return tt, snd (@_construct_circuit (stub sv_at6) (configured sv_at6 "circuit"))).
Proof. reflexivity. Qed.

Lemma C9_witness :
  let w := configured sv_at6 "circuit" in
  let w1 := snd (@_construct_circuit (stub sv_at6) w) in
  py_eq_str (_mode (self w)) "circuit" = true /\
  @_construct_circuit (stub sv_at6) w = (Return tt, w1) /\
  run_stub sv_at6 w
  = (Return stub_result, World (set_ret stub_result (self w1)) ∅ [] []).
Proof.
  cbv zeta.
  assert (H1 : py_eq_str (_mode (self (configured sv_at6 "circuit"))) "circuit" = true)
    by reflexivity.
  split; [exact H1|]. split; [exact _construct_circuit_stub_circuit|].
  exact (C9_circuit_mode_result (H := stub sv_at6) (configured sv_at6 "circuit") _
           H1 _construct_circuit_stub_circuit).
Defined.

Lemma init_params_custom_short_returns :
  init_params_stub sv_at6 (Obj matrix_id2) (w_custom [PInt 1])
  = (Return tt, snd (init_params_stub sv_at6 (Obj matrix_id2) (w_custom [PInt 1]))).
Proof. reflexivity. Qed.

Lemma C10_witness :
  let w := w_custom [PInt 1] in
  let w' := snd (init_params_stub sv_at6 (Obj matrix_id2) w) in
  let isp := default ∅ (params w !! "initial_state") in
  isp !! "name" = Some (PStr "CUSTOM") /\
  isp !! "state_vector" = Some (PList [PInt 1]) /\
  init_params_stub sv_at6 (Obj matrix_id2) w = (Return tt, w') /\
  exists isp', params w' !! "initial_state" = Some isp' /\
               isp' !! "state_vector" = Some (PList [PInt 1; PInt 0]).
Proof.
  cbv zeta.
  assert (H1 : default ∅ (params (w_custom [PInt 1]) !! "initial_state") !! "name"
               = Some (PStr "CUSTOM")) by reflexivity.
  assert (H2 : default ∅ (params (w_custom [PInt 1]) !! "initial_state") !! "state_vector"
               = Some (PList [PInt 1])) by reflexivity.
  split; [exact H1|]. split; [exact H2|].
  split; [exact init_params_custom_short_returns|].
  exact (proj1 (proj2 (proj2
           (C10_custom_state_vector_unchecked_and_padded
              (H := stub sv_at6) (w_custom [PInt 1]) _ (Obj matrix_id2) [PInt 1]
              H1 H2 init_params_custom_short_returns)))).
Defined.

(** A state vector longer than [2^num_q] (three entries, one input qubit,
    a 2 x 2 matrix) is accepted and kept as it is. *)
Lemma custom_state_vector_too_long_kept :
  let w' := snd (init_params_stub sv_at6 (Obj matrix_id2)
                   (w_custom [PInt 1; PInt 2; PInt 3])) in
  fst (init_params_stub sv_at6 (Obj matrix_id2) (w_custom [PInt 1; PInt 2; PInt 3]))
  = Return tt /\
  default ∅ (params w' !! "initial_state") !! "state_vector"
  = Some (PList [PInt 1; PInt 2; PInt 3]).
Proof. split; reflexivity. Qed.
